(** * Flowstate agent runtime: tool dispatch, sessions, tool registry,
      chat protocol, nudge scheduler and access tokens.

    Shallow embedding of
    - [src/flowstate/agents/base_agent.py] ([Agent], [tool], [run_tool]),
    - [src/flowstate/chats/flowstate_chat.py] ([FlowstateChat]),
    - [src/flowstate/auth.py] and [src/do/auth.py] (access tokens). *)

From Stdlib Require Import String Ascii List ZArith Lia Bool Sorting.
Import ListNotations.
Open Scope string_scope.
Local Set Warnings "-register-all".

(* ------------------------------------------------------------------ *)
(** ** Python values, exceptions and string rendering *)

Module Py.

(** Python exceptions: the class name, [str(e)], and whether the class
    derives from [Exception] (so that [except Exception] catches it);
    [asyncio.CancelledError] and [KeyboardInterrupt] do not. *)
Record exc := mk_exc { exc_type : string; exc_str : string; exc_is_exception : bool }.

Definition type_error (msg : string) : exc := mk_exc "TypeError" msg true.
Definition value_error (msg : string) : exc := mk_exc "ValueError" msg true.

(** Values passed to and returned by tools. *)
Inductive pyval :=
| PNone
| PBool (b : bool)
| PInt (z : Z)
| PStr (s : string)
| PList (l : list pyval).

(** Decimal digits of a natural number (as [str(int)] prints it). *)
Definition digit (n : N) : ascii := ascii_of_N (48 + n).

Fixpoint dec_digits (fuel : nat) (n : N) : string :=
  match fuel with
  | O => ""
  | S f =>
      if (n <? 10)%N then String (digit n) ""
      else dec_digits f (n / 10) ++ String (digit (n mod 10)) ""
  end.

Definition str_of_N (n : N) : string := dec_digits (S (N.size_nat n)) n.

Definition str_of_Z (z : Z) : string :=
  if (z <? 0)%Z then "-" ++ str_of_N (Z.to_N (- z)) else str_of_N (Z.to_N z).

Definition hex_digit (n : N) : ascii :=
  if (n <? 10)%N then ascii_of_N (48 + n) else ascii_of_N (87 + n).

(** The double-quote character. *)
Definition dquote : ascii := ascii_of_nat 34.

(** One character of [repr(s)] for ASCII text, [q] being the quote used. *)
Definition repr_char (q : ascii) (c : ascii) : string :=
  let n := N_of_ascii c in
  if Ascii.eqb c q then String "\" (String c "")
  else if Ascii.eqb c "\"%char then "\\"
  else if (n =? 9)%N then "\t"
  else if (n =? 10)%N then "\n"
  else if (n =? 13)%N then "\r"
  else if ((n <? 32) || (n =? 127))%N then
    String "\" (String "x" (String (hex_digit (n / 16)) (String (hex_digit (n mod 16)) "")))
  else String c "".

Fixpoint contains_char (c : ascii) (s : string) : bool :=
  match s with
  | EmptyString => false
  | String d s' => Ascii.eqb c d || contains_char c s'
  end.

Fixpoint map_chars (f : ascii -> string) (s : string) : string :=
  match s with
  | EmptyString => ""
  | String c s' => f c ++ map_chars f s'
  end.

(** [repr(s)] for ASCII strings: single quotes unless the text holds a
    single quote and no double quote. *)
Definition repr_str (s : string) : string :=
  let q : ascii := if contains_char "'"%char s && negb (contains_char dquote s)
                   then dquote else "'"%char in
  String q (map_chars (repr_char q) s ++ String q "").

Fixpoint repr_val (v : pyval) : string :=
  match v with
  | PNone => "None"
  | PBool true => "True"
  | PBool false => "False"
  | PInt z => str_of_Z z
  | PStr s => repr_str s
  | PList l => "[" ++ String.concat ", " (map repr_val l) ++ "]"
  end.

(** [str(v)]. *)
Definition str_val (v : pyval) : string :=
  match v with
  | PStr s => s
  | _ => repr_val v
  end.

(** Association lists used for Python dicts with unique keys. *)
Fixpoint lookup {A} (k : string) (d : list (string * A)) : option A :=
  match d with
  | [] => None
  | (k', v) :: d' => if String.eqb k k' then Some v else lookup k d'
  end.

Fixpoint remove_key {A} (k : string) (d : list (string * A)) : list (string * A) :=
  match d with
  | [] => []
  | (k', v) :: d' => if String.eqb k k' then d' else (k', v) :: remove_key k d'
  end.

End Py.
Import Py.

(* ------------------------------------------------------------------ *)
(** ** [Agent.__create_tool] / [run_tool] (base_agent.py, lines 119-140) *)

Module ToolDispatch.

(** A positional-or-keyword parameter of the bound tool method
    ([self] already bound), as [inspect.signature] reports it. *)
Record param := mk_param { pname : string; has_default : bool }.

(** [inspect.Signature.bind( *args, **kwargs)] for a signature made of
    positional-or-keyword parameters only.  The result is
    [BoundArguments.arguments]: the explicitly passed arguments, in
    parameter order; defaults are not filled in. *)
Fixpoint bind_positional (ps : list param) (args : list pyval)
    (kwargs : list (string * pyval)) (acc : list (string * pyval))
    : exc + (list (string * pyval) * list param) :=
  match args, ps with
  | [], _ => inr (acc, ps)
  | _ :: _, [] => inl (type_error "too many positional arguments")
  | a :: args', p :: ps' =>
      match lookup (pname p) kwargs with
      | Some _ =>
          inl (type_error ("multiple values for argument " ++ repr_str (pname p)))
      | None => bind_positional ps' args' kwargs (acc ++ [(pname p, a)])%list
      end
  end.

Fixpoint bind_keywords (ps : list param) (kwargs : list (string * pyval))
    (acc : list (string * pyval)) : exc + list (string * pyval) :=
  match ps with
  | [] =>
      match kwargs with
      | [] => inr acc
      | (k, _) :: _ =>
          inl (type_error ("got an unexpected keyword argument " ++ repr_str k))
      end
  | p :: ps' =>
      match lookup (pname p) kwargs with
      | Some v => bind_keywords ps' (remove_key (pname p) kwargs) (acc ++ [(pname p, v)])%list
      | None =>
          if has_default p then bind_keywords ps' kwargs acc
          else inl (type_error ("missing a required argument: " ++ repr_str (pname p)))
      end
  end.

Definition bind (ps : list param) (args : list pyval) (kwargs : list (string * pyval))
    : exc + list (string * pyval) :=
  match bind_positional ps args kwargs [] with
  | inl e => inl e
  | inr (acc, rest) => bind_keywords rest kwargs acc
  end.

(** A replacement field of a [str.format] template, [{name}], [{name!s}]
    or [{name!r}]; the labels in the repository use only these. *)
Inductive conversion := ConvNone | ConvS | ConvR.

Inductive fmt_piece :=
| FLit (s : string)
| FField (name : string) (conv : conversion).

(** [template.format( **arguments)]: a missing name raises [KeyError]. *)
Fixpoint format (t : list fmt_piece) (kw : list (string * pyval)) : exc + string :=
  match t with
  | [] => inr ""
  | FLit s :: t' =>
      match format t' kw with inl e => inl e | inr r => inr (s ++ r) end
  | FField n c :: t' =>
      match lookup n kw with
      | None => inl (mk_exc "KeyError" (repr_str n) true)
      | Some v =>
          let s := match c with ConvR => repr_val v | _ => str_val v end in
          match format t' kw with inl e => inl e | inr r => inr (s ++ r) end
      end
  end.

(** The [nice_name] attribute set by [@tool(nice_name)]: a [str] (used
    through [.format]) or any other callable. *)
Inductive label :=
| LFormat (t : list fmt_piece)
| LCall (f : list (string * pyval) -> exc + string).

(** A tool attribute of an agent: [attr_name], its bound method's
    parameters, its [nice_name] (if decorated) and its body. *)
Record tool_def := mk_tool {
  attr_name : string;
  params : list param;
  nice_name : option label;
  body : list pyval -> list (string * pyval) -> exc + pyval }.

(** [getattr(tool, "nice_name", attr_name)], turned into a callable: an
    attribute name is a Python identifier, so its template is literal. *)
Definition name_callable (td : tool_def) : label :=
  match nice_name td with
  | Some l => l
  | None => LFormat [FLit (attr_name td)]
  end.

Definition apply_label (l : label) (kw : list (string * pyval)) : exc + string :=
  match l with
  | LFormat t => format t kw
  | LCall f => f kw
  end.

(** Observable effects of one wrapped call: a progress report sent
    through the [report_tool] callback, and an invocation of the tool body. *)
Inductive event := EvReport (label : string) | EvBody.

(** [report_tool] callback given to [Agent.__init__]: [None], or a
    coroutine that may raise. *)
Definition reporter := option (string -> option exc).

Definition report_tool (r : reporter) (name : string) : list event * option exc :=
  match r with
  | None => ([], None)
  | Some f => ([EvReport name], f name)
  end.

(** [run_tool( *args, **kwargs)]: returns the events and the coroutine's
    outcome, [inr] for a returned value and [inl] for a raised exception. *)
Definition run_tool (td : tool_def) (r : reporter)
    (args : list pyval) (kwargs : list (string * pyval)) : list event * (exc + pyval) :=
  match bind (params td) args kwargs with
  | inl e => ([], inl e)
  | inr arguments =>
      match apply_label (name_callable td) arguments with
      | inl e => ([], inl e)
      | inr name =>
          let (evs, rep) := report_tool r name in
          match rep with
          | Some e => (evs, inl e)
          | None =>
              match body td args kwargs with
              | inr v => ((evs ++ [EvBody])%list, inr v)
              | inl e =>
                  if exc_is_exception e then
                    ((evs ++ [EvBody])%list,
                     inr (PStr ("Error in tool " ++ attr_name td ++ ": " ++ exc_str e)))
                  else ((evs ++ [EvBody])%list, inl e)
              end
          end
      end
  end.

(** [DoAgent.create_task] (do_agent.py, lines 187-207): every parameter
    has a default, and its label is ["Creating task {title} in {project_name}"]. *)
Definition create_task_tool (b : list pyval -> list (string * pyval) -> exc + pyval) : tool_def :=
  mk_tool "create_task"
    [mk_param "project_name" true; mk_param "title" true; mk_param "description" true;
     mk_param "due_date" true; mk_param "priority" true; mk_param "task_type" true]
    (Some (LFormat [FLit "Creating task "; FField "title" ConvNone;
                    FLit " in "; FField "project_name" ConvNone]))
    b.

(** [LearnMoreAgent.read_file(self, file_path)] (learn_more_agent.py,
    line 86): one required parameter, no [@tool] label. *)
Definition read_file_tool (b : list pyval -> list (string * pyval) -> exc + pyval) : tool_def :=
  mk_tool "read_file" [mk_param "file_path" false] None b.

End ToolDispatch.

(* ------------------------------------------------------------------ *)
(** ** [Agent.send_prompt] (base_agent.py, lines 93-117) *)

Module Session.
Section Session.

(** Message records, outputs, dependency objects and output types are
    those of the model-calling library; [agent.run] is that library's
    collaborator call.  It receives the history by value: the model
    takes it not to mutate the list passed as [message_history]. *)
Variables (msg output deps_t otype : Type).

Record response := mk_response { new_messages : list msg; resp_output : output }.

(** Python truthiness of a dependency object ([if deps:]). *)
Variable truthy_deps : deps_t -> bool.

Variable agent_run : string -> list msg -> option deps_t -> option otype -> exc + response.

(** The agent's [history], and a log of the collaborator calls made
    (prompt and history passed), used to count attempts. *)
Record agent_state := mk_agent_state {
  history : list msg;
  model_calls : list (string * list msg) }.

(** [if deps: kwargs["deps"] = deps]. *)
Definition deps_kwarg (deps : option deps_t) : option deps_t :=
  match deps with
  | Some d => if truthy_deps d then Some d else None
  | None => None
  end.

Definition send_prompt (st : agent_state) (prompt : string)
    (deps : option deps_t) (output_type : option otype) : agent_state * (exc + output) :=
  let kw_deps := deps_kwarg deps in
  let calls := (model_calls st ++ [(prompt, history st)])%list in
  match agent_run prompt (history st) kw_deps output_type with
  | inl e => (mk_agent_state (history st) calls, inl e)
  | inr r => (mk_agent_state (history st ++ new_messages r)%list calls, inr (resp_output r))
  end.

End Session.

Arguments send_prompt {msg output deps_t otype} truthy_deps agent_run st prompt deps output_type.
Arguments deps_kwarg {deps_t} truthy_deps deps.
Arguments history {msg}.
Arguments model_calls {msg}.
Arguments mk_agent_state {msg}.
Arguments new_messages {msg output}.
Arguments resp_output {msg output}.
Arguments mk_response {msg output}.

End Session.

(* ------------------------------------------------------------------ *)
(** ** [Agent.__init_subclass__] and [Agent.__init__] (base_agent.py, lines 41-87) *)

Module Registry.

(** Python's [sorted] on strings: code-point lexicographic order, which
    is [String.compare] on ASCII names.  [sort_uniq] is [sorted(set(l))]. *)
Fixpoint insert_uniq (x : string) (l : list string) : list string :=
  match l with
  | [] => [x]
  | y :: l' =>
      match String.compare x y with
      | Lt => x :: l
      | Eq => l
      | Gt => y :: insert_uniq x l'
      end
  end.

Definition sort_uniq (l : list string) : list string := fold_right insert_uniq [] l.

(** Right-hand sides of assignments in a class body. *)
Inductive attr :=
| AFunc                      (* def, lambda, or any other callable *)
| AList (l : list string)    (* a list display, e.g. [tools = []] *)
| AStr (s : option string)   (* a str, or None *)
| AOther.                    (* any other non-callable value *)

(** Values stored in class dicts; lists live in a heap, so that two
    classes can share one list object. *)
Inductive value :=
| VFunc
| VList (r : nat)
| VStr (s : option string)
| VOther.

Definition callable (v : value) : bool :=
  match v with VFunc => true | _ => false end.

(** [d[k] = v] on a dict: an existing key keeps its position. *)
Fixpoint dict_set {A} (k : string) (v : A) (d : list (string * A)) : list (string * A) :=
  match d with
  | [] => [(k, v)]
  | (k', v') :: d' => if String.eqb k k' then (k, v) :: d' else (k', v') :: dict_set k v d'
  end.

Fixpoint set_nth {A} (n : nat) (x : A) (l : list A) : list A :=
  match l, n with
  | [], _ => []
  | _ :: l', O => x :: l'
  | y :: l', S n' => y :: set_nth n' x l'
  end.

(** [Agent.tools] is the heap cell 0. *)
Definition agent_tools_ref : nat := 0.

(** The class dict of [Agent] (lines 22-144; its docstring abridged).  [object] and
    [typing.Generic] contribute only names starting with an underscore. *)
Definition agent_dict : list (string * value) :=
  [("__doc__", VStr (Some "Base agent class."));
   ("agent_factory", VFunc);
   ("system_prompt", VStr (Some ""));
   ("tools", VList agent_tools_ref);
   ("deps_type", VOther);
   ("output_type", VOther);
   ("__init__", VFunc);
   ("__init_subclass__", VFunc);
   ("_report_tool", VFunc);
   ("send_prompt", VFunc);
   ("_Agent__create_tool", VFunc);
   ("_Agent__current_date", VFunc)].

Record class_entry := mk_class { parent : option nat; cdict : list (string * value) }.

Record rstate := mk_rstate { heap : list (list string); classes : list class_entry }.

Definition init_rstate : rstate := mk_rstate [[]] [].

(** Attribute lookup along the (single-inheritance) MRO; [None] is [Agent]. *)
Fixpoint mro_lookup (fuel : nat) (cs : list class_entry) (c : option nat) (name : string)
    : option value :=
  match c with
  | None => lookup name agent_dict
  | Some i =>
      match nth_error cs i with
      | None => None
      | Some e =>
          match lookup name (cdict e) with
          | Some v => Some v
          | None => match fuel with O => None | S f => mro_lookup f cs (parent e) name end
          end
      end
  end.

Fixpoint mro_names (fuel : nat) (cs : list class_entry) (c : option nat) : list string :=
  match c with
  | None => map fst agent_dict
  | Some i =>
      match nth_error cs i, fuel with
      | Some e, S f => (map fst (cdict e) ++ mro_names f cs (parent e))%list
      | Some e, O => map fst (cdict e)
      | None, _ => []
      end
  end.

Definition getattr (st : rstate) (c : option nat) (name : string) : option value :=
  mro_lookup (length (classes st)) (classes st) c name.

(** [dir(cls)]. *)
Definition dir (st : rstate) (c : option nat) : list string :=
  sort_uniq (mro_names (length (classes st)) (classes st) c).

Definition is_public (name : string) : bool :=
  match name with String "_" _ => false | _ => true end.

Definition mem (x : string) (l : list string) : bool := existsb (String.eqb x) l.

(** Evaluate a class body (its assignments in order) into a dict,
    allocating the list displays on the heap. *)
Fixpoint eval_body (body : list (string * attr)) (h : list (list string))
    (d : list (string * value)) : list (string * value) * list (list string) :=
  match body with
  | [] => (d, h)
  | (k, a) :: body' =>
      match a with
      | AFunc => eval_body body' h (dict_set k VFunc d)
      | AList l => eval_body body' (h ++ [l])%list (dict_set k (VList (length h)) d)
      | AStr s => eval_body body' h (dict_set k (VStr s) d)
      | AOther => eval_body body' h (dict_set k VOther d)
      end
  end.

Definition set_class_attr (st : rstate) (i : nat) (k : string) (v : value) : rstate :=
  match nth_error (classes st) i with
  | Some e => mk_rstate (heap st) (set_nth i (mk_class (parent e) (dict_set k v (cdict e))) (classes st))
  | None => st
  end.

(** [cls.tools.append(name)]: an attribute that is not a list has no
    [append]. *)
Definition append_tool (st : rstate) (i : nat) (name : string) : exc + rstate :=
  match getattr st (Some i) "tools" with
  | Some (VList r) =>
      inr (mk_rstate (set_nth r (nth r (heap st) [] ++ [name])%list (heap st)) (classes st))
  | _ => inl (mk_exc "AttributeError" "object has no attribute 'append'" true)
  end.

Fixpoint register_tools (st : rstate) (i : nat) (super_attrs names : list string)
    : exc + rstate :=
  match names with
  | [] => inr st
  | name :: names' =>
      let keep := is_public name && negb (mem name super_attrs) &&
                  match getattr st (Some i) name with Some v => callable v | None => false end in
      if keep then
        match append_tool st i name with
        | inl e => inl e
        | inr st' => register_tools st' i super_attrs names'
        end
      else register_tools st i super_attrs names'
  end.

(** [Agent.__init_subclass__(cls)] for the class at index [i]. *)
Definition init_subclass (st : rstate) (i : nat) : exc + rstate :=
  let st1 :=
    match getattr st (Some i) "tools" with
    | Some (VList r) =>
        if Nat.eqb r agent_tools_ref then
          set_class_attr (mk_rstate (heap st ++ [[]])%list (classes st)) i "tools"
                         (VList (length (heap st)))
        else st
    | _ => st
    end in
  match register_tools st1 i (dir st1 None) (dir st1 (Some i)) with
  | inl e => inl e
  | inr st2 =>
      let doc := match getattr st2 (Some i) "__doc__" with
                 | Some (VStr d) => d
                 | _ => None
                 end in
      inr (set_class_attr st2 i "system_prompt" (VStr doc))
  end.

(** [class T(P)] with docstring [doc] and [body]: the class object is created with its
    namespace ([__doc__] always present, [None] without a docstring),
    then [__init_subclass__] runs.  Returns the new class index. *)
Definition define_class (st : rstate) (p : option nat) (doc : option string)
    (body : list (string * attr)) : exc + (rstate * nat) :=
  let (d, h) := eval_body body (heap st) [("__doc__", VStr doc)] in
  let i := length (classes st) in
  match init_subclass (mk_rstate h (classes st ++ [mk_class p d])%list) i with
  | inl e => inl e
  | inr st' => inr (st', i)
  end.

(** [T.tools] and [T.system_prompt] after definition. *)
Definition tools_of (st : rstate) (i : nat) : list string :=
  match getattr st (Some i) "tools" with
  | Some (VList r) => nth r (heap st) []
  | _ => []
  end.

Definition system_prompt_of (st : rstate) (i : nat) : option value :=
  getattr st (Some i) "system_prompt".

Definition newline : string := String (ascii_of_nat 10) "".

(** The [system_prompt] argument built by [Agent.__init__] (line 64) for
    an instance of class [i] that does not override [__init__];
    [str + None] raises [TypeError]. *)
Definition agent_preamble : string := "Always format dates in a nice human format.".

Definition agent_init_prompt (st : rstate) (i : nat) : exc + string :=
  match system_prompt_of st i with
  | Some (VStr (Some s)) => inr (agent_preamble ++ newline ++ s)
  | Some (VStr None) =>
      inl (type_error ("can only concatenate str (not " ++ String dquote "NoneType" ++
                       String dquote ") to str"))
  | _ => inl (type_error "can only concatenate str to str")
  end.

End Registry.

(* ------------------------------------------------------------------ *)
(** ** [FlowstateChat.listen] (flowstate_chat.py, lines 193-247) *)

Module Chat.

(** Decoded JSON values ([json.loads]); numbers are integers, objects are
    dicts with unique keys in document order. *)
Inductive json :=
| JNull
| JBool (b : bool)
| JNum (z : Z)
| JStr (s : string)
| JArr (l : list json)
| JObj (d : list (string * json)).

(** [repr] and [str] of a decoded JSON value (ASCII text). *)
Fixpoint json_repr (j : json) : string :=
  match j with
  | JNull => "None"
  | JBool true => "True"
  | JBool false => "False"
  | JNum z => str_of_Z z
  | JStr s => repr_str s
  | JArr l => "[" ++ String.concat ", " (map json_repr l) ++ "]"
  | JObj d =>
      "{" ++ String.concat ", " (map (fun kv => repr_str (fst kv) ++ ": " ++ json_repr (snd kv)) d)
      ++ "}"
  end.

Definition json_str (j : json) : string :=
  match j with
  | JStr s => s
  | _ => json_repr j
  end.

(** An inbound WebSocket text frame: its raw text and, when it is JSON,
    the decoded value. *)
Record frame := mk_frame { raw : string; decoded : option json }.

(** What the connection does, in order. *)
Inductive action :=
| ASend (payload : json)              (* [send_json(...)] *)
| AInvoke (handler : string) (data : json)   (* a [*_handler] coroutine is awaited *)
| ALegacyPrompt (text : string)       (* the plain-text prompt branch *)
| AClose.                             (* [finally]: nudge cancelled, socket closed *)

(** [hasattr(self, name)] for the handler names of [FlowstateChat]. *)
Definition has_handler (name : string) : bool :=
  String.eqb name "prompt_handler" || String.eqb name "complete_task_handler".

Definition error_event (msg : string) : json :=
  JObj [("type", JStr "error"); ("error", JStr msg)].

(** [data.get(key) == s]: a missing key gives [None], and [==] between a
    non-string and a string is [False]. *)
Definition get_eq (v : option json) (s : string) : bool :=
  match v with Some (JStr s') => String.eqb s' s | _ => false end.

Section Listen.

(** The effects of awaiting a handler on a message, and whether it
    raised; likewise for the plain-text prompt branch. *)
Variable run_handler : string -> json -> list action * bool.
Variable run_legacy : string -> list action * bool.

(** One pass of the inner [try] on a received JSON value: [inr acts]
    when the body completed, [inl acts] when it raised (after [acts]). *)
Definition dispatch (data : json) : list action + list action :=
  match data with
  | JObj d =>
      if get_eq (lookup "type" d) "complete_task" then
          let (acts, raised) := run_handler "complete_task_handler" data in
          let acts := AInvoke "complete_task_handler" data :: acts in
          if raised then inl acts else inr acts
      else
          match lookup "kind" d with
          | None =>
              inr [ASend (error_event ("Invalid message format, got keys: " ++
                                       String.concat " ," (map fst d)))]
          | Some k =>
              let name := json_str k ++ "_handler" in
              if has_handler name then
                let (acts, raised) := run_handler name data in
                let acts := AInvoke name data :: acts in
                if raised then inl acts else inr acts
              else inr [ASend (error_event ("Invalid message type: " ++ json_str k))]
          end
  | _ => inl []   (* [data.get] on a non-dict raises [AttributeError] *)
  end.

(** The receive loop over the frames the client sends; the end of the
    list is the disconnect, which ends the loop through the outer
    [except]/[finally].  When the inner [try] fails, the next frame is
    read with [receive_text] and handled as a plain-text prompt. *)
Fixpoint listen (frames : list frame) : list action :=
  match frames with
  | [] => [AClose]
  | f :: rest =>
      let inner := match decoded f with
                   | Some data => dispatch data
                   | None => inl []    (* [receive_json]: invalid JSON *)
                   end in
      match inner with
      | inr acts => (acts ++ listen rest)%list
      | inl acts =>
          match rest with
          | [] => (acts ++ [AClose])%list
          | f2 :: rest' =>
              let (lacts, raised) := run_legacy (raw f2) in
              let lacts := ALegacyPrompt (raw f2) :: lacts in
              if raised then (acts ++ lacts ++ [AClose])%list
              else (acts ++ lacts ++ listen rest')%list
          end
      end
  end.

End Listen.
End Chat.

(* ------------------------------------------------------------------ *)
(** ** The nudge task of [FlowstateChat] (flowstate_chat.py, lines 71-191) *)

Module Nudge.

(** [random.randint(60, 300)], the draw given by a seed. *)
Definition randint (a b seed : Z) : Z := (a + seed mod (b - a + 1))%Z.

(** A task created by [self.loop.create_task(self.nudge_user())]:
    [Sleeping] in [asyncio.sleep] (scheduled, not yet fired), [Firing]
    after the sleep (sending the nudge), [Finished] when done or cancelled. *)
Inductive status := Sleeping | Firing | Finished.

Record nudge := mk_nudge { delay : Z; nstatus : status }.

(** Where [on_connect] and the receive loop are suspended.
    [CBriefing]: awaiting [send_welcome_message] or [send_next_task].
    [LReplying]: [prompt_handler] (or the plain-text branch) awaiting
    the agent between its cancel and its re-schedule. *)
Inductive cphase := CStart | CBriefing | CDone.
Inductive lphase := LIdle | LReplying.

(** [tasks] are all nudge tasks ever created (index = task id);
    [slot] is [self.nudge_task]. *)
Record chat := mk_chat {
  tasks : list nudge;
  slot : option nat;
  cph : cphase;
  lph : lphase }.

Definition init_chat : chat := mk_chat [] None CStart LIdle.

(** The atomic steps between the suspension points of the coroutines
    sharing the connection's event loop. *)
Inductive ev :=
| ConnectProject (seed : Z)  (* [on_connect] with a project: straight to [create_task] *)
| ConnectBrief               (* [on_connect] without a project: awaits the briefing *)
| ConnectDone (seed : Z)     (* the briefing was sent; line 91 *)
| PromptStart                (* [prompt_handler] up to its first await; lines 164-168 *)
| PromptDone (seed : Z)      (* reply sent; line 179 *)
| CompleteTask (has_id : bool) (seed : Z)  (* [complete_task_handler], no await *)
| InvalidMessage             (* an [error] event is sent; no nudge code runs *)
| Fire (i : nat)             (* the sleep of task [i] elapses *)
| FireDone (i : nat) (seed : Z)  (* task [i] sent its nudge; line 151 *)
| Disconnect.                (* [finally] of [listen]; line 244 *)

Definition set_status (ts : list nudge) (i : nat) (s : status) : list nudge :=
  Registry.set_nth i (match nth_error ts i with
                      | Some n => mk_nudge (delay n) s
                      | None => mk_nudge 0 s
                      end) ts.

Definition task_done (c : chat) (i : nat) : bool :=
  match nth_error (tasks c) i with
  | Some n => match nstatus n with Finished => true | _ => false end
  | None => true
  end.

(** [if self.nudge_task and not self.nudge_task.done(): self.nudge_task.cancel()];
    a cancelled nudge catches [CancelledError] and ends without
    re-scheduling. *)
Definition cancel_pending (c : chat) : chat :=
  match slot c with
  | Some i => if task_done c i then c
              else mk_chat (set_status (tasks c) i Finished) (slot c) (cph c) (lph c)
  | None => c
  end.

(** [self.nudge_task = self.loop.create_task(self.nudge_user())]. *)
Definition schedule (c : chat) (seed : Z) : chat :=
  mk_chat (tasks c ++ [mk_nudge (randint 60 300 seed) Sleeping])%list
          (Some (length (tasks c))) (cph c) (lph c).

Definition with_phases (c : chat) (cp : cphase) (lp : lphase) : chat :=
  mk_chat (tasks c) (slot c) cp lp.

Definition is_status (c : chat) (i : nat) (s : status) : bool :=
  match nth_error (tasks c) i with
  | Some n => match nstatus n, s with
              | Sleeping, Sleeping | Firing, Firing | Finished, Finished => true
              | _, _ => false
              end
  | None => false
  end.

Definition step (c : chat) (e : ev) : option chat :=
  match e with
  | ConnectProject seed =>
      match cph c with CStart => Some (with_phases (schedule c seed) CDone (lph c)) | _ => None end
  | ConnectBrief =>
      match cph c with CStart => Some (with_phases c CBriefing (lph c)) | _ => None end
  | ConnectDone seed =>
      match cph c with CBriefing => Some (with_phases (schedule c seed) CDone (lph c)) | _ => None end
  | PromptStart =>
      match lph c with LIdle => Some (with_phases (cancel_pending c) (cph c) LReplying) | _ => None end
  | PromptDone seed =>
      match lph c with LReplying => Some (with_phases (schedule c seed) (cph c) LIdle) | _ => None end
  | CompleteTask has_id seed =>
      match lph c with
      | LIdle => Some (if has_id then schedule (cancel_pending c) seed else c)
      | _ => None
      end
  | InvalidMessage =>
      match lph c with LIdle => Some c | _ => None end
  | Fire i =>
      if is_status c i Sleeping
      then Some (mk_chat (set_status (tasks c) i Firing) (slot c) (cph c) (lph c))
      else None
  | FireDone i seed =>
      if is_status c i Firing
      then Some (schedule (mk_chat (set_status (tasks c) i Finished) (slot c) (cph c) (lph c)) seed)
      else None
  | Disconnect =>
      match lph c with LIdle => Some (cancel_pending c) | _ => None end
  end.

Fixpoint run (c : chat) (es : list ev) : option chat :=
  match es with
  | [] => Some c
  | e :: es' => match step c e with Some c' => run c' es' | None => None end
  end.

(** Number of tasks in the "scheduled, not yet fired" state. *)
Definition pending_count (c : chat) : nat :=
  length (filter (fun n => match nstatus n with Sleeping => true | _ => false end) (tasks c)).

End Nudge.

(* ------------------------------------------------------------------ *)
(** ** The nudge of [chat_websocket] ([src/flowstate/websocket_handlers.py]
    lines 74-112, identical to [src/flowstate/app.py] lines 243-281, the
    handler of the [/ws] routes) *)

Module WsNudge.
Import Nudge.

(** [nudge_delay] (the [nonlocal] read by each new task when its sleep
    starts), all nudge tasks created, and [nudge_task]. *)
Record ws := mk_ws { ws_delay : Z; ws_tasks : list nudge; ws_slot : nat }.

(** Lines 86-88: [nudge_delay = 5 * 60]; the first task sleeps it. *)
Definition ws_init : ws := mk_ws (5 * 60) [mk_nudge (5 * 60) Sleeping] 0.

Inductive ws_ev :=
| WsReceive                    (* line 92-94: a message arrives; the nudge is cancelled *)
| WsFire (i : nat)             (* the sleep of task [i] elapses *)
| WsFireDone (i : nat) (seed : Z).  (* lines 81-84: nudge sent; re-draw and re-schedule *)

Definition ts_status (ts : list nudge) (i : nat) (s : status) : bool :=
  is_status (mk_chat ts None CDone LIdle) i s.

Definition ws_step (w : ws) (e : ws_ev) : option ws :=
  match e with
  | WsReceive =>
      if task_done (mk_chat (ws_tasks w) None CDone LIdle) (ws_slot w) then Some w
      else Some (mk_ws (ws_delay w) (set_status (ws_tasks w) (ws_slot w) Finished) (ws_slot w))
  | WsFire i =>
      if ts_status (ws_tasks w) i Sleeping
      then Some (mk_ws (ws_delay w) (set_status (ws_tasks w) i Firing) (ws_slot w))
      else None
  | WsFireDone i seed =>
      if ts_status (ws_tasks w) i Firing
      then let d := randint 60 300 seed in
           let ts := set_status (ws_tasks w) i Finished in
           Some (mk_ws d (ts ++ [mk_nudge d Sleeping])%list (length ts))
      else None
  end.

Fixpoint ws_run (w : ws) (es : list ws_ev) : option ws :=
  match es with
  | [] => Some w
  | e :: es' => match ws_step w e with Some w' => ws_run w' es' | None => None end
  end.

Definition ws_pending (w : ws) : nat :=
  pending_count (mk_chat (ws_tasks w) None CDone LIdle).

End WsNudge.

(* ------------------------------------------------------------------ *)
(** ** Access tokens ([src/flowstate/auth.py] lines 29-64, [src/do/auth.py] lines 22-81) *)

Module Token.

Definition bytes := list Byte.byte.

(** [int.to_bytes(8, "big")]: [OverflowError] outside [0 .. 2^64). *)
Fixpoint to_bytes_be (len : nat) (n : Z) : bytes :=
  match len with
  | O => []
  | S l => (to_bytes_be l (n / 256) ++ [match Byte.of_N (Z.to_N (n mod 256)) with
                                        | Some b => b
                                        | None => Byte.x00
                                        end])%list
  end.

Definition to_bytes8 (n : Z) : option bytes :=
  if ((0 <=? n) && (n <? 2 ^ 64))%Z then Some (to_bytes_be 8 n) else None.

(** [int.from_bytes(b, "big")]. *)
Definition from_bytes_be (b : bytes) : Z :=
  fold_left (fun acc x => (acc * 256 + Z.of_N (Byte.to_N x))%Z) b 0%Z.

(** Python slicing [b[start:stop]] with optional, possibly negative bounds. *)
Definition norm_index (len : Z) (i : Z) : Z :=
  if (i <? 0)%Z then Z.max 0 (len + i) else Z.min i len.

Definition py_slice {A} (l : list A) (start stop : option Z) : list A :=
  let len := Z.of_nat (length l) in
  let s := match start with Some i => norm_index len i | None => 0%Z end in
  let e := match stop with Some i => norm_index len i | None => len end in
  firstn (Z.to_nat (e - s)) (skipn (Z.to_nat s) l).

Section Codec.

(** Library primitives the module relies on: [str.encode] /
    [bytes.decode] (UTF-8), [hmac.new(key, body, "sha256").hexdigest()],
    and [base64.urlsafe_b64encode(...).decode()] /
    [base64.urlsafe_b64decode]; decoding failures are [ValueError]s. *)
Variable encode : string -> bytes.
Variable decode : bytes -> option string.
Variable hmac_sha256_hex : bytes -> bytes -> string.
Variable b64encode : bytes -> string.
Variable b64decode : string -> option bytes.

(** [generate_access_token_signature(user_id, timestamp, secret_key)]. *)
Definition generate_access_token_signature (user_id : Z) (timestamp secret_key : string)
    : option string :=
  match to_bytes8 user_id with
  | Some ub => Some (hmac_sha256_hex (encode secret_key) (ub ++ encode timestamp)%list)
  | None => None
  end.

(** [generate_access_token(user_id, secret_key)]; [timestamp] is
    [datetime.now(UTC).isoformat()] at the time of the call.  [None] is
    the [OverflowError] of [to_bytes]. *)
Definition generate_access_token (user_id : Z) (secret_key timestamp : string) : option string :=
  match to_bytes8 user_id, generate_access_token_signature user_id timestamp secret_key with
  | Some ub, Some signature => Some (b64encode (ub ++ encode timestamp ++ encode signature)%list)
  | _, _ => None
  end.

(** [verify_access_token(token, secret_key)]: [ValueError] and
    [TypeError] are suppressed into [None]. *)
Definition verify_access_token (token secret_key : string) : option Z :=
  match b64decode token with
  | None => None
  | Some payload =>
      let user_id_bytes := py_slice payload None (Some 8%Z) in
      let timestamp_bytes := py_slice payload (Some 8%Z) (Some (-64)%Z) in
      let signature_bytes := py_slice payload (Some (-64)%Z) None in
      let user_id := from_bytes_be user_id_bytes in
      match decode timestamp_bytes, decode signature_bytes with
      | Some timestamp, Some signature =>
          match generate_access_token_signature user_id timestamp secret_key with
          | Some expected => if String.eqb signature expected then Some user_id else None
          | None => None
          end
      | _, _ => None
      end
  end.

(** [src/do/auth.py]: the same codec with the module-level [SECRET_KEY]
    (already bytes). *)
Definition do_generate_access_token_signature (key : bytes) (user_id : Z) (timestamp : string)
    : option string :=
  match to_bytes8 user_id with
  | Some ub => Some (hmac_sha256_hex key (ub ++ encode timestamp)%list)
  | None => None
  end.

Definition do_generate_access_token (key : bytes) (user_id : Z) (timestamp : string)
    : option string :=
  match to_bytes8 user_id, do_generate_access_token_signature key user_id timestamp with
  | Some ub, Some signature => Some (b64encode (ub ++ encode timestamp ++ encode signature)%list)
  | _, _ => None
  end.

Definition do_verify_access_token (key : bytes) (token : string) : option Z :=
  match b64decode token with
  | None => None
  | Some payload =>
      let user_id := from_bytes_be (py_slice payload None (Some 8%Z)) in
      match decode (py_slice payload (Some 8%Z) (Some (-64)%Z)),
            decode (py_slice payload (Some (-64)%Z) None) with
      | Some timestamp, Some signature =>
          match do_generate_access_token_signature key user_id timestamp with
          | Some expected => if String.eqb signature expected then Some user_id else None
          | None => None
          end
      | _, _ => None
      end
  end.

End Codec.
End Token.

(* ================================================================== *)
(** * Scenarios and invariants used by the properties *)

Module SessionFixtures.
Import Session.

(** A model stub for the witnesses: it fails on the prompt ["fail"],
    and otherwise answers with one message echoing the prompt. *)
Definition stub_run (p : string) (_ : list string) (_ : option unit) (_ : option unit)
    : exc + response string string :=
  if String.eqb p "fail" then inl (mk_exc "ModelHTTPError" "503" true)
  else inr (mk_response [p] p).

(** A collaborator that always fails (timeout, rate limit, ...). *)
Definition always_fail (_ : string) (_ : list string) (_ : option unit) (_ : option unit)
    : exc + response string string :=
  inl (mk_exc "ModelHTTPError" "503" true).

End SessionFixtures.

Module RegistryFixtures.
Import Registry.

(** An agent declaring [zeta] before [alpha]. *)
Definition zeta_alpha_body : list (string * attr) :=
  [("zeta", AFunc); ("alpha", AFunc); ("limit", AOther); ("_helper", AFunc)].

Definition str_lt (a b : string) : Prop := String.compare a b = Lt.

Definition attr_callable (a : attr) : bool := match a with AFunc => true | _ => false end.

Definition vcallable (o : option value) : bool :=
  match o with Some v => callable v | None => false end.

Definition keep_tool (st : rstate) (i : nat) (super_attrs : list string) (name : string) : bool :=
  is_public name && negb (mem name super_attrs) && vcallable (getattr st (Some i) name).

End RegistryFixtures.

Module NudgeFixtures.
Import Nudge.
Import WsNudge.

Definition all_finished (ts : list nudge) : Prop :=
  forall j n, nth_error ts j = Some n -> nstatus n = Finished.

(** Every live nudge task is the one [self.nudge_task] refers to, the
    connection setup is over, and while a prompt is being answered no
    nudge task is live. *)
Definition nudge_inv (c : chat) : Prop :=
  cph c = CDone /\
  (forall j n, nth_error (tasks c) j = Some n -> nstatus n <> Finished -> slot c = Some j) /\
  (lph c = LReplying -> all_finished (tasks c)).

Definition delays_ok (ts : list nudge) : Prop :=
  forall j n, nth_error ts j = Some n -> (60 <= delay n <= 300)%Z.

(** Every live task is [nudge_task]. *)
Definition ws_inv (w : ws) : Prop :=
  forall j n, nth_error (ws_tasks w) j = Some n -> nstatus n <> Finished -> j = ws_slot w.

(** The first task sleeps 300 seconds, every later one 60 to 300. *)
Definition delays_300_then_random (ts : list nudge) : Prop :=
  (exists s, nth_error ts 0 = Some (mk_nudge (5 * 60) s)) /\
  (forall j n, nth_error ts (S j) = Some n -> (60 <= delay n <= 300)%Z).

End NudgeFixtures.

Module ChatFixtures.
Import Chat.

(** Handlers and the plain-text branch that send nothing and return. *)
Definition quiet_handler (name : string) (data : json) : list action * bool := ([], false).
Definition quiet_legacy (text : string) : list action * bool := ([], false).

Definition quoted (s : string) : string := String dquote (s ++ String dquote "").

Definition frob_complete_data : json :=
  JObj [("kind", JStr "frobnicate"); ("type", JStr "complete_task"); ("task_id", JStr "7")].

Definition frob_complete_frame : frame :=
  mk_frame ("{" ++ quoted "kind" ++ ": " ++ quoted "frobnicate" ++ ", " ++
            quoted "type" ++ ": " ++ quoted "complete_task" ++ ", " ++
            quoted "task_id" ++ ": " ++ quoted "7" ++ "}")
           (Some frob_complete_data).

Definition frob_frame : frame :=
  mk_frame ("{" ++ quoted "kind" ++ ": " ++ quoted "frobnicate" ++ "}")
           (Some (JObj [("kind", JStr "frobnicate")])).

End ChatFixtures.

Module TokenFixtures.
Import Token.

(** Codec instances for a concrete run: identity byte/string
    conversions and a constant 64-digit signature. *)
Definition fixed_hex : string :=
  "0123456789abcdef0123456789abcdef0123456789abcdef0123456789abcdef".

Definition id_decode (b : bytes) : option string := Some (string_of_list_byte b).
Definition const_hmac (k m : bytes) : string := fixed_hex.
Definition id_b64decode (s : string) : option bytes := Some (list_byte_of_string s).

End TokenFixtures.

(* ================================================================== *)
(** * Properties *)

Module ToolDispatchFacts.
Import ToolDispatch.

(** A binding failure ends the wrapped call with the [TypeError] of
    [signature.bind], before any report and before the body runs. *)
Lemma run_tool_bind_error td r args kwargs e :
  bind (params td) args kwargs = inl e ->
  run_tool td r args kwargs = ([], inl e).
Proof. intros H. unfold run_tool. now rewrite H. Qed.

(** A label that cannot be rendered ends the wrapped call the same way. *)
Lemma run_tool_label_error td r args kwargs arguments e :
  bind (params td) args kwargs = inr arguments ->
  apply_label (name_callable td) arguments = inl e ->
  run_tool td r args kwargs = ([], inl e).
Proof. intros H1 H2. unfold run_tool. now rewrite H1, H2. Qed.

(** Once the label is rendered and reported, the body runs once: its
    value is returned as is, and an [Exception] it raises becomes the
    string ["Error in tool {attr_name}: {e}"]. *)
Lemma run_tool_after_report td r args kwargs arguments name :
  bind (params td) args kwargs = inr arguments ->
  apply_label (name_callable td) arguments = inr name ->
  snd (report_tool r name) = None ->
  run_tool td r args kwargs =
    ((fst (report_tool r name) ++ [EvBody])%list,
     match body td args kwargs with
     | inr v => inr v
     | inl e => if exc_is_exception e
                then inr (PStr ("Error in tool " ++ attr_name td ++ ": " ++ exc_str e))
                else inl e
     end).
Proof.
  intros H1 H2 H3. unfold run_tool. rewrite H1, H2.
  destruct (report_tool r name) as [evs rep] eqn:Hr. simpl in H3. subst rep. simpl.
  destruct (body td args kwargs) as [e|v]; [destruct (exc_is_exception e)|]; reflexivity.
Qed.

(** C1 (code_bug, failing input).  The wrapped [create_task] invoked
    with [title="hummus"] only: the arguments bind, but the label
    ["Creating task {title} in {project_name}"] is formatted with the
    explicitly bound arguments only, so [.format] raises
    [KeyError('project_name')] outside the [try]: the body is never
    invoked and the exception leaves the wrapped tool. *)
Theorem run_tool_create_task_label_keyerror :
  forall b r,
    bind (params (create_task_tool b)) [] [("title", PStr "hummus")]
      = inr [("title", PStr "hummus")] /\
    run_tool (create_task_tool b) r [] [("title", PStr "hummus")]
      = ([], inl (mk_exc "KeyError" "'project_name'" true)).
Proof. intros b r. split; reflexivity. Qed.


End ToolDispatchFacts.

Module SessionFacts.
Import Session.
Import SessionFixtures.

(** C2.  If the collaborator call [agent.run] raises, [send_prompt]
    re-raises it and the history is the one before the call; if it
    succeeds, the history becomes the old one followed by exactly the
    new messages of that exchange, and the output is returned. *)
Theorem send_prompt_history_on_failure_or_success :
  forall (msg output deps_t otype : Type) truthy run
         (st : agent_state msg) prompt (deps : option deps_t) (ot : option otype),
    (forall e, run prompt (history st) (deps_kwarg truthy deps) ot = inl e ->
       history (fst (send_prompt truthy run st prompt deps ot)) = history st /\
       snd (send_prompt truthy run st prompt deps ot) = inl e) /\
    (forall (r : response msg output),
       run prompt (history st) (deps_kwarg truthy deps) ot = inr r ->
       history (fst (send_prompt truthy run st prompt deps ot)) = (history st ++ new_messages r)%list /\
       snd (send_prompt truthy run st prompt deps ot) = inr (resp_output r)).
Proof.
  intros msg output deps_t otype truthy run st prompt deps ot. split.
  - intros e H. unfold send_prompt. rewrite H. split; reflexivity.
  - intros r H. unfold send_prompt. rewrite H. split; reflexivity.
Qed.

Lemma send_prompt_history_on_failure_or_success_witness :
  stub_run "fail" ["hi"] (deps_kwarg (fun _ => true) None) None
    = inl (mk_exc "ModelHTTPError" "503" true) /\
  history (fst (send_prompt (fun _ => true) stub_run (mk_agent_state ["hi"] []) "fail" None None))
    = ["hi"] /\
  history (fst (send_prompt (fun _ => true) stub_run (mk_agent_state ["hi"] []) "ok" None None))
    = ["hi"; "ok"].
Proof.
  split; [reflexivity|]. split.
  - apply (proj1 (send_prompt_history_on_failure_or_success string string unit unit
                    (fun _ => true) stub_run (mk_agent_state ["hi"] []) "fail" None None)
                 (mk_exc "ModelHTTPError" "503" true) eq_refl).
  - apply (proj2 (send_prompt_history_on_failure_or_success string string unit unit
                    (fun _ => true) stub_run (mk_agent_state ["hi"] []) "ok" None None)
                 (mk_response ["ok"] "ok") eq_refl).
Defined.




End SessionFacts.

Module RegistryFacts.
Import Registry.
Import RegistryFixtures.

(** Two-level hierarchy: the child appends to its parent's list. *)
Example grandchild_shares_parent_list :
  match define_class init_rstate None (Some "P.") [("a", AFunc)] with
  | inr (st1, p) =>
      match define_class st1 (Some p) (Some "C.") [("b", AFunc)] with
      | inr (st2, c) => tools_of st2 p = ["a"; "a"; "b"] /\ tools_of st2 c = ["a"; "a"; "b"]
      | inl _ => False
      end
  | inl _ => False
  end.
Proof. vm_compute. split; reflexivity. Qed.

(** *** Sorted, duplicate-free name lists *)

Lemma ascii_compare_lt_trans (a b c : ascii) :
  Ascii.compare a b = Lt -> Ascii.compare b c = Lt -> Ascii.compare a c = Lt.
Proof. unfold Ascii.compare. rewrite !N.compare_lt_iff. lia. Qed.

Lemma str_lt_trans (s1 s2 s3 : string) : str_lt s1 s2 -> str_lt s2 s3 -> str_lt s1 s3.
Proof.
  unfold str_lt. revert s2 s3.
  induction s1 as [|a s1 IH]; intros [|b s2] [|c s3]; simpl; intros H1 H2;
    try discriminate; try reflexivity.
  destruct (Ascii.compare a b) eqn:Eab; try discriminate.
  - apply Ascii.compare_eq_iff in Eab. subst b.
    destruct (Ascii.compare a c) eqn:Eac; try discriminate; [|reflexivity].
    now apply (IH s2 s3).
  - destruct (Ascii.compare b c) eqn:Ebc; try discriminate.
    + apply Ascii.compare_eq_iff in Ebc. subst c. now rewrite Eab.
    + now rewrite (ascii_compare_lt_trans a b c Eab Ebc).
Qed.

Lemma str_compare_gt_lt (a b : string) : String.compare a b = Gt -> str_lt b a.
Proof. unfold str_lt. intros H. rewrite String.compare_antisym, H. reflexivity. Qed.

Lemma in_insert_uniq (x a : string) (l : list string) :
  In x (insert_uniq a l) <-> x = a \/ In x l.
Proof.
  induction l as [|y l IH]; simpl.
  - split; intuition (subst; auto).
  - destruct (String.compare a y) eqn:E; simpl.
    + apply String.compare_eq_iff in E. subst y. split; intuition (subst; auto).
    + split; intuition (subst; auto).
    + rewrite IH. split; intuition (subst; auto).
Qed.

Lemma insert_uniq_sorted (a : string) (l : list string) :
  StronglySorted str_lt l -> StronglySorted str_lt (insert_uniq a l).
Proof.
  induction l as [|y l IH]; simpl; intros Hs.
  - repeat constructor.
  - inversion Hs as [|? ? Hl Hf]; subst.
    destruct (String.compare a y) eqn:E.
    + exact Hs.
    + constructor; [exact Hs|]. constructor; [exact E|].
      rewrite Forall_forall in *. intros z Hz. exact (str_lt_trans _ _ _ E (Hf z Hz)).
    + constructor; [apply IH, Hl|].
      rewrite Forall_forall in *. intros z Hz. apply in_insert_uniq in Hz as [->|Hz].
      * now apply str_compare_gt_lt.
      * now apply Hf.
Qed.

Lemma in_sort_uniq (x : string) (l : list string) : In x (sort_uniq l) <-> In x l.
Proof.
  induction l as [|a l IH]; simpl; [tauto|].
  rewrite in_insert_uniq, IH. split; intros [H|H]; auto.
Qed.

Lemma sort_uniq_sorted (l : list string) : StronglySorted str_lt (sort_uniq l).
Proof.
  induction l as [|a l IH]; simpl; [constructor|]. now apply insert_uniq_sorted.
Qed.

Lemma filter_sorted {A} (R : A -> A -> Prop) (p : A -> bool) (l : list A) :
  StronglySorted R l -> StronglySorted R (filter p l).
Proof.
  induction l as [|a l IH]; simpl; intros Hs; [constructor|].
  inversion Hs as [|? ? Hl Hf]; subst.
  destruct (p a); [|now apply IH].
  constructor; [now apply IH|].
  rewrite Forall_forall in *. intros z Hz. apply filter_In in Hz. now apply Hf.
Qed.

(** *** Dicts and class bodies *)

Lemma lookup_dict_set {A} (n k : string) (v : A) (d : list (string * A)) :
  lookup n (dict_set k v d) = if String.eqb n k then Some v else lookup n d.
Proof.
  induction d as [|[k' v'] d IH]; simpl.
  - reflexivity.
  - destruct (String.eqb_spec k k') as [->|Hne]; simpl.
    + destruct (String.eqb n k'); reflexivity.
    + rewrite IH. destruct (String.eqb_spec n k') as [->|?];
        [destruct (String.eqb_spec k' k); [congruence|reflexivity]|reflexivity].
Qed.

Lemma keys_dict_set {A} (n k : string) (v : A) (d : list (string * A)) :
  In n (map fst (dict_set k v d)) <-> n = k \/ In n (map fst d).
Proof.
  induction d as [|[k' v'] d IH]; simpl.
  - split; intuition (subst; auto).
  - destruct (String.eqb_spec k k') as [->|Hne]; simpl; [split; intuition (subst; auto)|].
    rewrite IH. split; intuition (subst; auto).
Qed.

Lemma lookup_app {A} (n : string) (l1 l2 : list (string * A)) :
  lookup n (l1 ++ l2)%list = match lookup n l1 with Some v => Some v | None => lookup n l2 end.
Proof.
  induction l1 as [|[k v] l1 IH]; simpl; [reflexivity|].
  destruct (String.eqb n k); [reflexivity|exact IH].
Qed.

Lemma lookup_in_keys {A} (n : string) (d : list (string * A)) (v : A) :
  lookup n d = Some v -> In n (map fst d).
Proof.
  induction d as [|[k v'] d IH]; simpl; [discriminate|].
  destruct (String.eqb_spec n k) as [->|?]; auto.
Qed.

Lemma lookup_not_in_keys {A} (n : string) (d : list (string * A)) :
  ~ In n (map fst d) -> lookup n d = None.
Proof.
  induction d as [|[k v] d IH]; simpl; [reflexivity|].
  intros Hn. destruct (String.eqb_spec n k) as [->|?]; [tauto|]. apply IH. tauto.
Qed.

Lemma eval_body_callable (B : list (string * attr)) h d n :
  vcallable (lookup n (fst (eval_body B h d))) =
  match lookup n (rev B) with
  | Some a => attr_callable a
  | None => vcallable (lookup n d)
  end.
Proof.
  revert h d. induction B as [|[k a] B IH]; intros h d; simpl; [reflexivity|].
  rewrite lookup_app.
  destruct a; rewrite IH; destruct (lookup n (rev B)); try reflexivity;
    rewrite lookup_dict_set; simpl; destruct (String.eqb n k); reflexivity.
Qed.

Lemma eval_body_keys (B : list (string * attr)) h d n :
  In n (map fst (fst (eval_body B h d))) <-> In n (map fst d) \/ In n (map fst B).
Proof.
  revert h d. induction B as [|[k a] B IH]; intros h d; simpl; [tauto|].
  destruct a; rewrite IH, keys_dict_set; split; intuition (subst; auto).
Qed.

Lemma eval_body_lookup_other (B : list (string * attr)) h d n :
  ~ In n (map fst B) -> lookup n (fst (eval_body B h d)) = lookup n d.
Proof.
  revert h d. induction B as [|[k a] B IH]; intros h d; simpl; [reflexivity|].
  intros Hn.
  destruct a; rewrite IH by tauto; rewrite lookup_dict_set;
    destruct (String.eqb_spec n k); subst; intuition.
Qed.

Lemma eval_body_heap_length (B : list (string * attr)) h d :
  length h <= length (snd (eval_body B h d)).
Proof.
  revert h d. induction B as [|[k a] B IH]; intros h d; simpl; [lia|].
  destruct a; try apply IH.
  specialize (IH (h ++ [l])%list (dict_set k (VList (length h)) d)).
  rewrite length_app in IH. simpl in IH. lia.
Qed.

(** *** Heap and class table updates *)

Lemma length_set_nth {A} (i : nat) (x : A) (l : list A) : length (set_nth i x l) = length l.
Proof. revert i. induction l as [|y l IH]; intros [|i]; simpl; auto. Qed.

Lemma nth_error_set_nth_same {A} (i : nat) (x : A) (l : list A) :
  i < length l -> nth_error (set_nth i x l) i = Some x.
Proof.
  revert i. induction l as [|y l IH]; intros [|i]; simpl; intros H; try lia; auto.
  apply IH. lia.
Qed.

Lemma nth_set_nth_same {A} (i : nat) (x dflt : A) (l : list A) :
  i < length l -> nth i (set_nth i x l) dflt = x.
Proof.
  revert i. induction l as [|y l IH]; intros [|i]; simpl; intros H; try lia; auto.
  apply IH. lia.
Qed.

Lemma set_nth_set_nth {A} (i : nat) (x y : A) (l : list A) :
  set_nth i y (set_nth i x l) = set_nth i y l.
Proof. revert i. induction l as [|z l IH]; intros [|i]; simpl; auto. f_equal. apply IH. Qed.

(** Attribute lookup and [dir] on a direct subclass of [Agent]. *)
Lemma getattr_direct (st : rstate) (i : nat) (e : class_entry) (n : string) :
  nth_error (classes st) i = Some e -> parent e = None ->
  getattr st (Some i) n =
    match lookup n (cdict e) with Some v => Some v | None => lookup n agent_dict end.
Proof.
  intros He Hp. unfold getattr.
  assert (Hlen : i < length (classes st)) by (apply nth_error_Some; rewrite He; discriminate).
  destruct (length (classes st)) as [|f]; [lia|].
  simpl. rewrite He. destruct (lookup n (cdict e)); [reflexivity|]. rewrite Hp; destruct f; reflexivity.
Qed.

Lemma dir_direct (st : rstate) (i : nat) (e : class_entry) :
  nth_error (classes st) i = Some e -> parent e = None ->
  dir st (Some i) = sort_uniq (map fst (cdict e) ++ map fst agent_dict)%list.
Proof.
  intros He Hp. unfold dir.
  assert (Hlen : i < length (classes st)) by (apply nth_error_Some; rewrite He; discriminate).
  destruct (length (classes st)) as [|f]; [lia|].
  simpl. rewrite He, Hp. destruct f; reflexivity.
Qed.

(** The registration loop appends, to the one list [cls.tools] refers
    to, the names it keeps, in the order of [names]. *)
Lemma register_tools_spec (names : list string) :
  forall st i sa r,
    getattr st (Some i) "tools" = Some (VList r) -> r < length (heap st) ->
    register_tools st i sa names =
      inr (mk_rstate (set_nth r (nth r (heap st) [] ++ filter (keep_tool st i sa) names)%list
                              (heap st))
                     (classes st)).
Proof.
  induction names as [|name names IH]; intros st i sa r Ht Hr; simpl.
  - rewrite app_nil_r. destruct st as [h cs]. simpl.
    f_equal. f_equal. clear -Hr. simpl in Hr. revert r Hr.
    induction h as [|y h IHh]; intros [|r]; simpl; intros Hr; try lia; auto.
    f_equal. apply IHh. lia.
  - unfold keep_tool at 1.
    destruct (is_public name && negb (mem name sa) &&
              match getattr st (Some i) name with Some v => callable v | None => false end)
      eqn:Hk.
    + unfold append_tool. rewrite Ht.
      set (st' := mk_rstate (set_nth r (nth r (heap st) [] ++ [name])%list (heap st)) (classes st)).
      assert (Ht' : getattr st' (Some i) "tools" = Some (VList r)) by exact Ht.
      assert (Hr' : r < length (heap st')) by (simpl; rewrite length_set_nth; exact Hr).
      rewrite (IH st' i sa r Ht' Hr'). simpl.
      rewrite nth_set_nth_same by exact Hr. rewrite set_nth_set_nth, <- app_assoc.
      unfold vcallable. rewrite Hk. reflexivity.
    + rewrite (IH st i sa r Ht Hr). unfold vcallable. rewrite Hk. reflexivity.
Qed.

Lemma mem_In (x : string) (l : list string) : mem x l = true <-> In x l.
Proof.
  unfold mem. rewrite existsb_exists. split.
  - intros [y [Hy Hxy]]. apply String.eqb_eq in Hxy. now subst y.
  - intros Hx. exists x. split; [exact Hx|apply String.eqb_refl].
Qed.

Lemma dir_agent (st : rstate) : dir st None = sort_uniq (map fst agent_dict).
Proof. unfold dir. destruct (length (classes st)); reflexivity. Qed.

Lemma attr_callable_iff (a : attr) : attr_callable a = true <-> a = AFunc.
Proof. destruct a; simpl; split; congruence. Qed.

Lemma in_keys_rev {A} (n : string) (l : list (string * A)) :
  In n (map fst (rev l)) <-> In n (map fst l).
Proof. rewrite map_rev. split; [apply in_rev|intros H; now apply in_rev in H]. Qed.

(** Defining a direct subclass of [Agent] whose body assigns neither
    [tools] nor [__doc__]. *)
Lemma define_direct_subclass (st : rstate) (doc : option string) (B : list (string * attr)) :
  ~ In "tools" (map fst B) -> ~ In "__doc__" (map fst B) ->
  exists st',
    define_class st None doc B = inr (st', length (classes st)) /\
    (forall n, In n (tools_of st' (length (classes st))) <->
               is_public n = true /\ ~ In n (dir st' None) /\ lookup n (rev B) = Some AFunc) /\
    StronglySorted str_lt (tools_of st' (length (classes st))) /\
    system_prompt_of st' (length (classes st)) = Some (VStr doc).
Proof.
  intros Htools Hdoc. unfold define_class.
  destruct (eval_body B (heap st) [("__doc__", VStr doc)]) as [d h] eqn:Hev.
  assert (Hd_tools : lookup "tools" d = None).
  { change d with (fst (d, h)). rewrite <- Hev.
    rewrite eval_body_lookup_other by exact Htools. reflexivity. }
  assert (Hd_doc : lookup "__doc__" d = Some (VStr doc)).
  { change d with (fst (d, h)). rewrite <- Hev.
    rewrite eval_body_lookup_other by exact Hdoc. reflexivity. }
  set (i := length (classes st)).
  set (cs0 := (classes st ++ [mk_class None d])%list).
  assert (Hn0 : nth_error cs0 i = Some (mk_class None d)).
  { unfold cs0, i. rewrite nth_error_app2, Nat.sub_diag by lia. reflexivity. }
  assert (Hlen0 : i < length cs0).
  { unfold cs0, i. rewrite length_app. simpl. lia. }
  unfold init_subclass.
  rewrite (getattr_direct (mk_rstate h cs0) i _ "tools" Hn0 eq_refl). simpl cdict.
  rewrite Hd_tools.
  assert (Hat : lookup "tools" agent_dict = Some (VList agent_tools_ref)) by reflexivity.
  rewrite Hat, Nat.eqb_refl. cbn [heap classes].
  set (d1 := dict_set "tools" (VList (length h)) d).
  set (cs1 := set_nth i (mk_class None d1) cs0).
  assert (HS1 : set_class_attr (mk_rstate (h ++ [[]]) cs0) i "tools" (VList (length h))
                = mk_rstate (h ++ [[]]) cs1).
  { unfold set_class_attr. simpl. rewrite Hn0. reflexivity. }
  rewrite HS1.
  set (S1 := mk_rstate (h ++ [[]]) cs1).
  assert (Hn1 : nth_error (classes S1) i = Some (mk_class None d1)).
  { simpl. unfold cs1. apply nth_error_set_nth_same. exact Hlen0. }
  assert (Hga1 : forall n, getattr S1 (Some i) n =
                   match lookup n d1 with Some v => Some v | None => lookup n agent_dict end).
  { intros n. exact (getattr_direct S1 i _ n Hn1 eq_refl). }
  assert (Ht1 : getattr S1 (Some i) "tools" = Some (VList (length h))).
  { rewrite Hga1. unfold d1. rewrite lookup_dict_set. reflexivity. }
  assert (Hr1 : length h < length (heap S1)).
  { simpl. rewrite length_app. simpl. lia. }
  rewrite (register_tools_spec _ S1 i _ _ Ht1 Hr1).
  set (K := keep_tool S1 i (dir S1 None)).
  set (names := dir S1 (Some i)).
  assert (Hnth0 : nth (length h) (heap S1) [] = []).
  { simpl. rewrite app_nth2 by lia. rewrite Nat.sub_diag. reflexivity. }
  rewrite Hnth0. simpl app.
  set (heap2 := set_nth (length h) (filter K names) (heap S1)).
  assert (Hn2 : nth_error (classes (mk_rstate heap2 (classes S1))) i = Some (mk_class None d1))
    by exact Hn1.
  rewrite (getattr_direct _ i _ "__doc__" Hn2 eq_refl). simpl cdict.
  unfold d1. rewrite lookup_dict_set. simpl String.eqb. rewrite Hd_doc. cbv iota.
  fold d1.
  set (d3 := dict_set "system_prompt" (VStr doc) d1).
  set (S3 := set_class_attr (mk_rstate heap2 (classes S1)) i "system_prompt" (VStr doc)).
  assert (HS3 : S3 = mk_rstate heap2 (set_nth i (mk_class None d3) (classes S1))).
  { unfold S3, set_class_attr. rewrite Hn2. reflexivity. }
  assert (Hn3 : nth_error (classes S3) i = Some (mk_class None d3)).
  { rewrite HS3. simpl. apply nth_error_set_nth_same.
    simpl. unfold cs1. rewrite length_set_nth. exact Hlen0. }
  assert (Hga3 : forall n, getattr S3 (Some i) n =
                   match lookup n d3 with Some v => Some v | None => lookup n agent_dict end).
  { intros n. exact (getattr_direct S3 i _ n Hn3 eq_refl). }
  assert (Htools3 : tools_of S3 i = filter K names).
  { unfold tools_of. rewrite Hga3. unfold d3, d1. rewrite !lookup_dict_set. simpl.
    rewrite HS3. simpl. unfold heap2. apply nth_set_nth_same. exact Hr1. }
  exists S3. split; [reflexivity|].
  rewrite Htools3. split; [|split].
  - (* membership *)
    intros n. rewrite filter_In. unfold K, keep_tool.
    rewrite dir_agent, dir_agent.
    assert (Hnames : names = sort_uniq (map fst d1 ++ map fst agent_dict)%list)
      by exact (dir_direct S1 i _ Hn1 eq_refl).
    rewrite Hnames, in_sort_uniq, in_app_iff.
    split.
    + intros [_ Hk]. apply andb_prop in Hk as [Hk Hc]. apply andb_prop in Hk as [Hp Hm].
      apply negb_true_iff in Hm.
      assert (Hna : ~ In n (map fst agent_dict)).
      { intros Hin. apply (proj2 (in_sort_uniq n _)) in Hin. apply mem_In in Hin. congruence. }
      split; [exact Hp|]. split; [rewrite in_sort_uniq; exact Hna|].
      rewrite Hga1 in Hc. rewrite (lookup_not_in_keys n agent_dict Hna) in Hc.
      unfold d1 in Hc. rewrite lookup_dict_set in Hc.
      destruct (String.eqb_spec n "tools") as [->|Hnt]; [simpl in Hna; tauto|].
      assert (Hc' : vcallable (lookup n d) = true) by (destruct (lookup n d); exact Hc).
      change d with (fst (d, h)) in Hc'. rewrite <- Hev, eval_body_callable in Hc'.
      destruct (lookup n (rev B)) as [a|].
      * apply attr_callable_iff in Hc'. now subst a.
      * simpl in Hc'. destruct (String.eqb_spec n "__doc__") as [->|]; [simpl in Hna; tauto|].
        discriminate.
    + intros [Hp [Hna Hb]]. rewrite in_sort_uniq in Hna.
      split.
      * left. unfold d1. apply keys_dict_set. right.
        change d with (fst (d, h)). rewrite <- Hev. apply eval_body_keys. right.
        apply in_keys_rev. exact (lookup_in_keys _ _ _ Hb).
      * rewrite Hp, andb_true_l.
        match goal with |- context [mem n ?l] =>
          destruct (mem n l) eqn:Hm; [apply mem_In in Hm; rewrite !in_sort_uniq in Hm; tauto|]
        end. simpl.
        rewrite Hga1. rewrite (lookup_not_in_keys n agent_dict Hna).
        unfold d1. rewrite lookup_dict_set.
        destruct (String.eqb_spec n "tools") as [->|Hnt]; [simpl in Hna; tauto|].
        assert (Hc : vcallable (lookup n d) = true).
        { change d with (fst (d, h)). rewrite <- Hev, eval_body_callable, Hb. reflexivity. }
        destruct (lookup n d); exact Hc.
  - apply filter_sorted, sort_uniq_sorted.
  - unfold system_prompt_of. rewrite Hga3. unfold d3. rewrite lookup_dict_set. reflexivity.
Qed.

(** C3 (counterexample): the agent body declares [zeta] before [alpha];
    the registered tool list is [alpha; zeta], the order of [dir(cls)],
    not the declaration order. *)
Lemma zeta_alpha_declaration_order_counterexample :
  match define_class init_rstate None (Some "Doc.") zeta_alpha_body with
  | inr (st', i) =>
      tools_of st' i = ["alpha"; "zeta"] /\ tools_of st' i <> ["zeta"; "alpha"]
  | inl _ => False
  end.
Proof. vm_compute. split; [reflexivity|discriminate]. Qed.

(** C3 (amended): for a direct subclass of [Agent] whose body assigns
    neither [tools] nor [__doc__], definition succeeds; a name is in the
    tool list exactly when it is public, is not an attribute of [Agent],
    and its last assignment in the body is a callable; the list is in
    strictly ascending code-point order (so each name occurs once); and the
    system prompt is the docstring verbatim. *)
Theorem direct_subclass_tools_sorted (st : rstate) (doc : option string)
    (B : list (string * attr)) :
  ~ In "tools" (map fst B) -> ~ In "__doc__" (map fst B) ->
  match define_class st None doc B with
  | inr (st', i) =>
      (forall n, In n (tools_of st' i) <->
                 is_public n = true /\ ~ In n (dir st' None) /\ lookup n (rev B) = Some AFunc) /\
      StronglySorted str_lt (tools_of st' i) /\
      system_prompt_of st' i = Some (VStr doc)
  | inl _ => False
  end.
Proof.
  intros Ht Hd. destruct (define_direct_subclass st doc B Ht Hd) as [st' [-> H]]. exact H.
Qed.

Lemma direct_subclass_tools_sorted_witness :
  (~ In "tools" (map fst zeta_alpha_body) /\ ~ In "__doc__" (map fst zeta_alpha_body)) /\
  match define_class init_rstate None (Some "Doc.") zeta_alpha_body with
  | inr (st', i) =>
      (forall n, In n (tools_of st' i) <->
                 is_public n = true /\ ~ In n (dir st' None) /\
                 lookup n (rev zeta_alpha_body) = Some AFunc) /\
      StronglySorted str_lt (tools_of st' i) /\
      system_prompt_of st' i = Some (VStr (Some "Doc."))
  | inl _ => False
  end.
Proof.
  split.
  - split; simpl; intuition discriminate.
  - apply (direct_subclass_tools_sorted init_rstate (Some "Doc.") zeta_alpha_body);
      simpl; intuition discriminate.
Defined.

(** C4 (counterexample): an agent with an empty docstring is defined and
    constructed without error; its prompt is the fixed preamble alone.  An
    agent without a docstring is also defined without error. *)
Lemma empty_docstring_constructs_counterexample :
  match define_class init_rstate None (Some "") [] with
  | inr (st', i) => agent_init_prompt st' i = inr (agent_preamble ++ newline)
  | inl _ => False
  end /\
  match define_class init_rstate None None [] with
  | inr _ => True
  | inl _ => False
  end.
Proof. vm_compute. split; [reflexivity|exact I]. Qed.

(** C4 (amended): defining a direct subclass of [Agent] whose body assigns
    neither [tools] nor [__doc__] never fails.  Constructing it (without an
    overriding [__init__]) builds the prompt preamble, a newline and the
    docstring, even when the docstring is empty; without a docstring
    construction raises [TypeError] from [str + None]. *)
Theorem direct_subclass_docstring_prompt (st : rstate) (doc : option string)
    (B : list (string * attr)) :
  ~ In "tools" (map fst B) -> ~ In "__doc__" (map fst B) ->
  match define_class st None doc B with
  | inr (st', i) =>
      agent_init_prompt st' i =
        match doc with
        | Some s => inr (agent_preamble ++ newline ++ s)
        | None => inl (type_error ("can only concatenate str (not " ++ String dquote "NoneType" ++
                                   String dquote ") to str"))
        end
  | inl _ => False
  end.
Proof.
  intros Ht Hd. destruct (define_direct_subclass st doc B Ht Hd) as [st' [-> [_ [_ Hsp]]]].
  unfold agent_init_prompt. rewrite Hsp. destruct doc; reflexivity.
Qed.

Lemma direct_subclass_docstring_prompt_witness :
  (~ In "tools" (map fst zeta_alpha_body) /\ ~ In "__doc__" (map fst zeta_alpha_body)) /\
  match define_class init_rstate None None zeta_alpha_body with
  | inr (st', i) =>
      agent_init_prompt st' i =
        inl (type_error ("can only concatenate str (not " ++ String dquote "NoneType" ++
                         String dquote ") to str"))
  | inl _ => False
  end.
Proof.
  split.
  - split; simpl; intuition discriminate.
  - apply (direct_subclass_docstring_prompt init_rstate None zeta_alpha_body);
      simpl; intuition discriminate.
Defined.

End RegistryFacts.

(* ------------------------------------------------------------------ *)
Module NudgeFacts.
Import Nudge.
Import NudgeFixtures.

Lemma nth_error_set_nth_other {A} (i j : nat) (x : A) (l : list A) :
  j <> i -> nth_error (Registry.set_nth i x l) j = nth_error l j.
Proof.
  revert i j. induction l as [|y l IH]; intros [|i] [|j] H; simpl; try reflexivity; try lia.
  apply IH. lia.
Qed.

Lemma nth_error_set_status (ts : list nudge) (i j : nat) (s : status) :
  nth_error (set_status ts i s) j =
    if Nat.eqb j i then match nth_error ts i with
                        | Some n => Some (mk_nudge (delay n) s)
                        | None => None
                        end
    else nth_error ts j.
Proof.
  unfold set_status. destruct (Nat.eqb_spec j i) as [->|Hji].
  - destruct (nth_error ts i) as [n|] eqn:Hn.
    + apply RegistryFacts.nth_error_set_nth_same. apply nth_error_Some. congruence.
    + assert (length ts <= i) by (apply nth_error_None; exact Hn).
      apply nth_error_None. rewrite RegistryFacts.length_set_nth. exact H.
  - apply nth_error_set_nth_other. exact Hji.
Qed.

Lemma is_status_spec (c : chat) (i : nat) (s : status) :
  is_status c i s = true -> exists n, nth_error (tasks c) i = Some n /\ nstatus n = s.
Proof.
  unfold is_status. destruct (nth_error (tasks c) i) as [n|]; [|discriminate].
  intros H. exists n. split; [reflexivity|]. destruct (nstatus n), s; try discriminate; reflexivity.
Qed.

Lemma cancel_pending_all_finished (c : chat) :
  (forall j n, nth_error (tasks c) j = Some n -> nstatus n <> Finished -> slot c = Some j) ->
  all_finished (tasks (cancel_pending c)).
Proof.
  intros H j n Hj. unfold cancel_pending in Hj.
  destruct (slot c) as [i|] eqn:Hs.
  - destruct (task_done c i) eqn:Hd.
    + destruct (nstatus n) eqn:Hst; try reflexivity;
        (assert (Hij : Some i = Some j) by (apply (H j n Hj); congruence);
         injection Hij as <-; unfold task_done in Hd; rewrite Hj, Hst in Hd; discriminate).
    + simpl in Hj. rewrite nth_error_set_status in Hj.
      destruct (Nat.eqb_spec j i) as [->|Hji].
      * destruct (nth_error (tasks c) i); [|discriminate]. injection Hj as <-. reflexivity.
      * destruct (nstatus n) eqn:Hst; try reflexivity;
          (assert (Hij : Some i = Some j) by (apply (H j n Hj); congruence);
           injection Hij as <-; congruence).
  - destruct (nstatus n) eqn:Hst; try reflexivity;
      (assert (Hij : None = Some j) by (apply (H j n Hj); congruence); discriminate).
Qed.

Lemma schedule_live (c : chat) (seed : Z) :
  all_finished (tasks c) ->
  forall j n, nth_error (tasks (schedule c seed)) j = Some n -> nstatus n <> Finished ->
              slot (schedule c seed) = Some j.
Proof.
  intros H j n Hj Hn. simpl in *.
  destruct (Nat.lt_ge_cases j (length (tasks c))) as [Hlt|Hge].
  - rewrite nth_error_app1 in Hj by exact Hlt. exfalso. exact (Hn (H j n Hj)).
  - rewrite nth_error_app2 in Hj by exact Hge.
    destruct (j - length (tasks c)) eqn:Hd; [f_equal; lia|].
    destruct n0; discriminate.
Qed.

Lemma step_inv (c c' : chat) (e : ev) : nudge_inv c -> step c e = Some c' -> nudge_inv c'.
Proof.
  intros [Hc [Hl Hr]] Hs. destruct e; simpl in Hs.
  - rewrite Hc in Hs. discriminate.
  - rewrite Hc in Hs. discriminate.
  - rewrite Hc in Hs. discriminate.
  - destruct (lph c); [|discriminate]. injection Hs as <-.
    split; [unfold cancel_pending; destruct (slot c); [destruct (task_done c n)|]; exact Hc|].
    assert (Hf := cancel_pending_all_finished c Hl).
    split; [|intros _; exact Hf].
    intros j n Hj Hn. exfalso. exact (Hn (Hf j n Hj)).
  - destruct (lph c) eqn:Hp; [discriminate|]. injection Hs as <-.
    split; [exact Hc|]. split; [|discriminate].
    exact (schedule_live c seed (Hr eq_refl)).
  - destruct (lph c) eqn:Hp; [|discriminate]. injection Hs as <-.
    destruct has_id.
    + assert (Hf := cancel_pending_all_finished c Hl).
      assert (Hph : cph (cancel_pending c) = CDone /\ lph (cancel_pending c) = LIdle).
      { unfold cancel_pending; destruct (slot c); [destruct (task_done c n)|]; auto. }
      destruct Hph as [Hph1 Hph2].
      split; [exact Hph1|]. split; [exact (schedule_live _ seed Hf)|].
      simpl. rewrite Hph2. discriminate.
    + split; [exact Hc|]. split; [exact Hl|]. rewrite Hp. discriminate.
  - destruct (lph c) eqn:Hp; [|discriminate]. injection Hs as <-.
    split; [exact Hc|]. split; [exact Hl|]. rewrite Hp. discriminate.
  - destruct (is_status c i Sleeping) eqn:Hi; [|discriminate]. injection Hs as <-.
    destruct (is_status_spec _ _ _ Hi) as [m [Hm Hms]].
    split; [exact Hc|]. split.
    + intros j n Hj Hn. simpl in Hj. rewrite nth_error_set_status in Hj.
      destruct (Nat.eqb_spec j i) as [->|Hji].
      * apply (Hl i m Hm). rewrite Hms. discriminate.
      * exact (Hl j n Hj Hn).
    + intros Hp. simpl in Hp. rewrite (Hr Hp i m Hm) in Hms. discriminate.
  - destruct (is_status c i Firing) eqn:Hi; [|discriminate]. injection Hs as <-.
    destruct (is_status_spec _ _ _ Hi) as [m [Hm Hms]].
    assert (Hsl : slot c = Some i) by (apply (Hl i m Hm); rewrite Hms; discriminate).
    assert (Hf : all_finished (set_status (tasks c) i Finished)).
    { intros j n Hj. rewrite nth_error_set_status in Hj.
      destruct (Nat.eqb_spec j i) as [->|Hji].
      - rewrite Hm in Hj. injection Hj as <-. reflexivity.
      - destruct (nstatus n) eqn:Hst; try reflexivity;
          (assert (Hij : Some i = Some j) by (rewrite <- Hsl; apply (Hl j n Hj); congruence);
           injection Hij as <-; congruence). }
    split; [exact Hc|]. split.
    + exact (schedule_live (mk_chat _ (slot c) (cph c) (lph c)) seed Hf).
    + intros Hp. rewrite (Hr Hp i m Hm) in Hms. discriminate.
  - destruct (lph c) eqn:Hp; [|discriminate]. injection Hs as <-.
    assert (Hf := cancel_pending_all_finished c Hl).
    assert (Hph : cph (cancel_pending c) = CDone).
    { unfold cancel_pending; destruct (slot c); [destruct (task_done c n)|]; auto. }
    split; [exact Hph|]. split; [|intros _; exact Hf].
    intros j n Hj Hn. exfalso. exact (Hn (Hf j n Hj)).
Qed.

Lemma run_inv (es : list ev) : forall c c', nudge_inv c -> run c es = Some c' -> nudge_inv c'.
Proof.
  induction es as [|e es IH]; intros c c' Hi Hr; simpl in Hr.
  - injection Hr as <-. exact Hi.
  - destruct (step c e) as [c1|] eqn:Hs; [|discriminate].
    exact (IH c1 c' (step_inv c c1 e Hi Hs) Hr).
Qed.

Lemma no_live_no_sleeping (l : list nudge) :
  (forall j n, nth_error l j = Some n -> nstatus n <> Finished -> False) ->
  length (filter (fun n => match nstatus n with Sleeping => true | _ => false end) l) = 0.
Proof.
  induction l as [|x l IH]; intros H; simpl; [reflexivity|].
  destruct (nstatus x) eqn:Hx.
  - exfalso. apply (H 0 x eq_refl). rewrite Hx. discriminate.
  - apply IH. intros j n Hj. exact (H (S j) n Hj).
  - apply IH. intros j n Hj. exact (H (S j) n Hj).
Qed.

Lemma live_at_most_one (l : list nudge) : forall s : option nat,
  (forall j n, nth_error l j = Some n -> nstatus n <> Finished -> s = Some j) ->
  length (filter (fun n => match nstatus n with Sleeping => true | _ => false end) l) <= 1.
Proof.
  induction l as [|x l IH]; intros s H; simpl; [lia|].
  assert (Hs' : forall j n, nth_error l j = Some n -> nstatus n <> Finished ->
                  match s with Some (S k) => Some k | _ => None end = Some j).
  { intros j n Hj Hn. rewrite (H (S j) n Hj Hn). reflexivity. }
  destruct (nstatus x) eqn:Hx.
  - assert (H0 : s = Some 0) by (apply (H 0 x eq_refl); rewrite Hx; discriminate).
    simpl. rewrite no_live_no_sleeping; [lia|].
    intros j n Hj Hn. specialize (Hs' j n Hj Hn). rewrite H0 in Hs'. discriminate.
  - exact (IH _ Hs').
  - exact (IH _ Hs').
Qed.

(** Without the briefing race: when [on_connect] schedules its nudge
    before any message is handled, at most one nudge is ever pending. *)
Lemma connect_project_pending_le_one (seed : Z) (es : list ev) (c : chat) :
  run init_chat (ConnectProject seed :: es) = Some c -> pending_count c <= 1.
Proof.
  intros Hr. simpl in Hr.
  assert (Hi : nudge_inv (with_phases (schedule init_chat seed) CDone LIdle)).
  { split; [reflexivity|]. split; [|discriminate].
    apply schedule_live. intros j n Hj. destruct j; discriminate. }
  destruct (run_inv es _ c Hi Hr) as [_ [Hl _]].
  exact (live_at_most_one (tasks c) (slot c) Hl).
Qed.

(** C7: a connection without a project awaits the briefing in
    [on_connect] while [listen] already handles a prompt; the prompt's
    re-schedule and then [on_connect]'s [create_task], which cancels
    nothing, leave two nudges scheduled and not yet fired. *)
Theorem briefing_race_two_pending :
  match run init_chat [ConnectBrief; PromptStart; PromptDone 0; ConnectDone 0] with
  | Some c => pending_count c = 2 /\
              tasks c = [mk_nudge 60 Sleeping; mk_nudge 60 Sleeping]
  | None => False
  end.
Proof. vm_compute. split; reflexivity. Qed.

Lemma randint_bound (seed : Z) : (60 <= randint 60 300 seed <= 300)%Z.
Proof.
  unfold randint. pose proof (Z.mod_pos_bound seed (300 - 60 + 1)) as H. lia.
Qed.

Lemma delays_set_status (ts : list nudge) (i : nat) (s : status) :
  delays_ok ts -> delays_ok (set_status ts i s).
Proof.
  intros H j n Hj. rewrite nth_error_set_status in Hj.
  destruct (Nat.eqb j i).
  - destruct (nth_error ts i) as [m|] eqn:Hm; [|discriminate].
    injection Hj as <-. exact (H i m Hm).
  - exact (H j n Hj).
Qed.

Lemma delays_append (ts : list nudge) (x : nudge) :
  delays_ok ts -> (60 <= delay x <= 300)%Z -> delays_ok (ts ++ [x])%list.
Proof.
  intros H Hx j n Hj.
  destruct (Nat.lt_ge_cases j (length ts)) as [Hlt|Hge].
  - rewrite nth_error_app1 in Hj by exact Hlt. exact (H j n Hj).
  - rewrite nth_error_app2 in Hj by exact Hge.
    destruct (j - length ts) as [|[|k]]; simpl in Hj; try discriminate.
    injection Hj as <-. exact Hx.
Qed.

Lemma delays_schedule (c : chat) (seed : Z) :
  delays_ok (tasks c) -> delays_ok (tasks (schedule c seed)).
Proof. intros H. apply delays_append; [exact H|apply randint_bound]. Qed.

Lemma delays_cancel (c : chat) : delays_ok (tasks c) -> delays_ok (tasks (cancel_pending c)).
Proof.
  intros H. unfold cancel_pending.
  destruct (slot c); [destruct (task_done c n)|]; try exact H.
  apply delays_set_status. exact H.
Qed.

Lemma step_delays (c c' : chat) (e : ev) :
  delays_ok (tasks c) -> step c e = Some c' -> delays_ok (tasks c').
Proof.
  intros H Hs. destruct e; simpl in Hs.
  - destruct (cph c); try discriminate. injection Hs as <-. exact (delays_schedule c seed H).
  - destruct (cph c); try discriminate. injection Hs as <-. exact H.
  - destruct (cph c); try discriminate. injection Hs as <-. exact (delays_schedule c seed H).
  - destruct (lph c); try discriminate. injection Hs as <-. exact (delays_cancel c H).
  - destruct (lph c); try discriminate. injection Hs as <-. exact (delays_schedule c seed H).
  - destruct (lph c); try discriminate. injection Hs as <-.
    destruct has_id; [apply delays_schedule, delays_cancel|]; exact H.
  - destruct (lph c); try discriminate. injection Hs as <-. exact H.
  - destruct (is_status c i Sleeping); try discriminate. injection Hs as <-.
    exact (delays_set_status _ i Firing H).
  - destruct (is_status c i Firing); try discriminate. injection Hs as <-.
    apply delays_schedule. exact (delays_set_status _ i Finished H).
  - destruct (lph c); try discriminate. injection Hs as <-. exact (delays_cancel c H).
Qed.

Lemma run_delays (es : list ev) : forall c c',
  delays_ok (tasks c) -> run c es = Some c' -> delays_ok (tasks c').
Proof.
  induction es as [|e es IH]; intros c c' H Hr; simpl in Hr.
  - injection Hr as <-. exact H.
  - destruct (step c e) as [c1|] eqn:Hs; [|discriminate].
    exact (IH c1 c' (step_delays c c1 e H Hs) Hr).
Qed.

Module Ws.
Import WsNudge.

Lemma delays_300_set_status (ts : list nudge) (i : nat) (s : status) :
  delays_300_then_random ts -> delays_300_then_random (set_status ts i s).
Proof.
  intros [[s0 H0] H]. split.
  - rewrite nth_error_set_status. destruct (Nat.eqb_spec 0 i) as [<-|_].
    + rewrite H0. exists s. reflexivity.
    + exists s0. exact H0.
  - intros j n Hj. rewrite nth_error_set_status in Hj.
    destruct (Nat.eqb_spec (S j) i) as [<-|_].
    + destruct (nth_error ts (S j)) eqn:Hm; [|discriminate].
      injection Hj as <-. exact (H _ _ Hm).
    + exact (H j n Hj).
Qed.

Lemma delays_300_append (ts : list nudge) (x : nudge) :
  delays_300_then_random ts -> (60 <= delay x <= 300)%Z ->
  delays_300_then_random (ts ++ [x])%list.
Proof.
  intros [[s0 H0] H] Hx.
  assert (Hlen : 0 < length ts) by (apply nth_error_Some; congruence).
  split.
  - exists s0. rewrite nth_error_app1 by exact Hlen. exact H0.
  - intros j n Hj.
    destruct (Nat.lt_ge_cases (S j) (length ts)) as [Hlt|Hge].
    + rewrite nth_error_app1 in Hj by exact Hlt. exact (H j n Hj).
    + rewrite nth_error_app2 in Hj by exact Hge.
      destruct (S j - length ts) as [|[|k]]; simpl in Hj; try discriminate.
      injection Hj as <-. exact Hx.
Qed.

Lemma ws_step_delays (w w' : ws) (e : ws_ev) :
  delays_300_then_random (ws_tasks w) -> ws_step w e = Some w' ->
  delays_300_then_random (ws_tasks w').
Proof.
  intros H Hs. destruct e; simpl in Hs.
  - destruct (task_done _ (ws_slot w)); injection Hs as <-; [exact H|].
    exact (delays_300_set_status _ _ _ H).
  - destruct (ts_status (ws_tasks w) i Sleeping); try discriminate. injection Hs as <-.
    exact (delays_300_set_status _ _ _ H).
  - destruct (ts_status (ws_tasks w) i Firing); try discriminate. injection Hs as <-.
    apply delays_300_append; [exact (delays_300_set_status _ _ _ H)|apply randint_bound].
Qed.

Lemma ws_set_status_inv (w : ws) (i : nat) (s : status) :
  ws_inv w -> (s = Finished \/ exists m, nth_error (ws_tasks w) i = Some m /\ nstatus m <> Finished) ->
  forall j n, nth_error (set_status (ws_tasks w) i s) j = Some n -> nstatus n <> Finished ->
              j = ws_slot w.
Proof.
  intros H Hs j n Hj Hn. rewrite nth_error_set_status in Hj.
  destruct (Nat.eqb_spec j i) as [->|Hji].
  - destruct Hs as [->|[m' [Hm' Hm'f]]].
    + destruct (nth_error (ws_tasks w) i); [|discriminate]. injection Hj as <-. simpl in Hn. congruence.
    + exact (H i m' Hm' Hm'f).
  - exact (H j n Hj Hn).
Qed.

Lemma ws_step_inv (w w' : ws) (e : ws_ev) : ws_inv w -> ws_step w e = Some w' -> ws_inv w'.
Proof.
  intros H Hs. destruct e; simpl in Hs.
  - destruct (task_done _ (ws_slot w)); injection Hs as <-; [exact H|].
    red; cbn [ws_tasks ws_slot]. exact (ws_set_status_inv w _ Finished H (or_introl eq_refl)).
  - destruct (ts_status (ws_tasks w) i Sleeping) eqn:Hi; try discriminate. injection Hs as <-.
    destruct (is_status_spec _ _ _ Hi) as [m [Hm Hms]].
    red; cbn [ws_tasks ws_slot]. apply (ws_set_status_inv w i Firing H).
    right. exists m. split; [exact Hm|]. rewrite Hms. discriminate.
  - destruct (ts_status (ws_tasks w) i Firing) eqn:Hi; try discriminate. injection Hs as <-.
    destruct (is_status_spec _ _ _ Hi) as [m [Hm Hms]]. cbn [tasks] in Hm.
    intros j n Hj Hn. cbn [ws_tasks ws_slot] in *.
    destruct (Nat.lt_ge_cases j (length (set_status (ws_tasks w) i Finished))) as [Hlt|Hge].
    + exfalso. rewrite nth_error_app1 in Hj by exact Hlt.
      assert (Hji : j = ws_slot w) by exact (ws_set_status_inv w i Finished H (or_introl eq_refl) j n Hj Hn).
      assert (Hii : i = ws_slot w) by (apply (H i m Hm); rewrite Hms; discriminate).
      rewrite nth_error_set_status in Hj. subst j.
      rewrite <- Hii, Nat.eqb_refl, Hm in Hj. injection Hj as <-. apply Hn. reflexivity.
    + rewrite nth_error_app2 in Hj by exact Hge.
      destruct (j - length _) as [|k] eqn:Hd; [lia|destruct k; discriminate].
Qed.

Lemma ws_cancel_all_finished (w w' : ws) :
  ws_inv w -> ws_step w WsReceive = Some w' -> all_finished (ws_tasks w').
Proof.
  intros H Hs j n Hj. simpl in Hs.
  destruct (task_done _ (ws_slot w)) eqn:Hd; injection Hs as <-.
  - destruct (nstatus n) eqn:Hst; try reflexivity;
      (assert (Hji : j = ws_slot w) by (apply (H j n Hj); congruence);
       subst j; unfold task_done in Hd; simpl in Hd; rewrite Hj, Hst in Hd; discriminate).
  - cbn [ws_tasks] in Hj. rewrite nth_error_set_status in Hj.
    destruct (Nat.eqb_spec j (ws_slot w)) as [->|Hji].
    + destruct (nth_error (ws_tasks w) (ws_slot w)); [|discriminate]. injection Hj as <-. reflexivity.
    + destruct (nstatus n) eqn:Hst; try reflexivity;
        (exfalso; apply Hji; apply (H j n Hj); congruence).
Qed.

Lemma ws_finished_stays (w w' : ws) (e : ws_ev) :
  all_finished (ws_tasks w) -> ws_step w e = Some w' -> all_finished (ws_tasks w').
Proof.
  intros H Hs. destruct e; simpl in Hs.
  - destruct (task_done _ (ws_slot w)); injection Hs as <-; [exact H|].
    intros j n Hj. cbn [ws_tasks] in Hj. rewrite nth_error_set_status in Hj.
    destruct (Nat.eqb j (ws_slot w)).
    + destruct (nth_error (ws_tasks w) (ws_slot w)); [|discriminate]. injection Hj as <-. reflexivity.
    + exact (H j n Hj).
  - destruct (ts_status (ws_tasks w) i Sleeping) eqn:Hi; try discriminate.
    destruct (is_status_spec _ _ _ Hi) as [m [Hm Hms]]. rewrite (H i m Hm) in Hms. discriminate.
  - destruct (ts_status (ws_tasks w) i Firing) eqn:Hi; try discriminate.
    destruct (is_status_spec _ _ _ Hi) as [m [Hm Hms]]. rewrite (H i m Hm) in Hms. discriminate.
Qed.

Lemma ws_run_app (es1 es2 : list ws_ev) (w : ws) :
  ws_run w (es1 ++ es2) = match ws_run w es1 with Some w1 => ws_run w1 es2 | None => None end.
Proof.
  revert w. induction es1 as [|e es1 IH]; intros w; simpl; [reflexivity|].
  destruct (ws_step w e); [apply IH|reflexivity].
Qed.

Lemma ws_run_inv (es : list ws_ev) : forall w w', ws_inv w -> ws_run w es = Some w' -> ws_inv w'.
Proof.
  induction es as [|e es IH]; intros w w' H Hr; simpl in Hr.
  - injection Hr as <-. exact H.
  - destruct (ws_step w e) as [w1|] eqn:Hs; [|discriminate].
    exact (IH w1 w' (ws_step_inv w w1 e H Hs) Hr).
Qed.

Lemma ws_run_finished (es : list ws_ev) : forall w w',
  all_finished (ws_tasks w) -> ws_run w es = Some w' -> all_finished (ws_tasks w').
Proof.
  induction es as [|e es IH]; intros w w' H Hr; simpl in Hr.
  - injection Hr as <-. exact H.
  - destruct (ws_step w e) as [w1|] eqn:Hs; [|discriminate].
    exact (IH w1 w' (ws_finished_stays w w1 e H Hs) Hr).
Qed.

Lemma ws_run_delays (es : list ws_ev) : forall w w',
  delays_300_then_random (ws_tasks w) -> ws_run w es = Some w' ->
  delays_300_then_random (ws_tasks w').
Proof.
  induction es as [|e es IH]; intros w w' H Hr; simpl in Hr.
  - injection Hr as <-. exact H.
  - destruct (ws_step w e) as [w1|] eqn:Hs; [|discriminate].
    exact (IH w1 w' (ws_step_delays w w1 e H Hs) Hr).
Qed.

Lemma ws_init_inv : ws_inv ws_init.
Proof. intros [|j] n Hj Hn; [reflexivity|destruct j; discriminate]. Qed.

(** After the first inbound message nothing is ever pending again. *)
Lemma ws_no_nudge_after_message (es1 es2 : list ws_ev) (w : ws) :
  ws_run ws_init (es1 ++ WsReceive :: es2) = Some w -> ws_pending w = 0.
Proof.
  rewrite ws_run_app. destruct (ws_run ws_init es1) as [w1|] eqn:H1; [|discriminate].
  change (ws_run w1 (WsReceive :: es2))
    with (match ws_step w1 WsReceive with Some w' => ws_run w' es2 | None => None end).
  destruct (ws_step w1 WsReceive) as [w2|] eqn:H2; [|discriminate]. intros Hr.
  assert (Hf : all_finished (ws_tasks w)).
  { apply (ws_run_finished es2 w2 w); [|exact Hr].
    exact (ws_cancel_all_finished w1 w2 (ws_run_inv es1 _ _ ws_init_inv H1) H2). }
  unfold ws_pending, pending_count. cbn [tasks]. apply no_live_no_sleeping.
  intros j n Hj Hn. exact (Hn (Hf j n Hj)).
Qed.

End Ws.

Lemma ws_init_delays : delays_300_then_random (WsNudge.ws_tasks WsNudge.ws_init).
Proof.
  split; [exists Sleeping; reflexivity|]. intros [|j] n Hj; discriminate.
Qed.




End NudgeFacts.

(* ------------------------------------------------------------------ *)
Module ChatFacts.
Import Chat.
Import ChatFixtures.

Lemma get_eq_false (v : option json) (s : string) :
  v <> Some (JStr s) -> get_eq v s = false.
Proof.
  intros H. destruct v as [[| | |s'| |]|]; try reflexivity.
  simpl. apply String.eqb_neq. congruence.
Qed.




End ChatFacts.

(* ------------------------------------------------------------------ *)
Module TokenFacts.
Import Token.
Import TokenFixtures.

Lemma byte_of_mod_to_N (n : Z) :
  Byte.to_N (match Byte.of_N (Z.to_N (n mod 256)) with Some b => b | None => Byte.x00 end)
  = Z.to_N (n mod 256).
Proof.
  pose proof (Z.mod_pos_bound n 256 ltac:(lia)) as Hb.
  pose proof (Byte.to_of_N_option_map (Z.to_N (n mod 256))) as H.
  assert (Hle : N.leb (Z.to_N (n mod 256)) 255 = true) by (apply N.leb_le; lia).
  rewrite Hle in H.
  destruct (Byte.of_N (Z.to_N (n mod 256))); simpl in H; [injection H as H; exact H|discriminate].
Qed.

Lemma length_to_bytes_be (k : nat) (n : Z) : length (to_bytes_be k n) = k.
Proof.
  revert n. induction k as [|k IH]; intros n; simpl; [reflexivity|].
  rewrite length_app, IH. simpl. lia.
Qed.

Lemma from_bytes_be_snoc (b : bytes) (x : Byte.byte) :
  from_bytes_be (b ++ [x])%list = (from_bytes_be b * 256 + Z.of_N (Byte.to_N x))%Z.
Proof. unfold from_bytes_be. rewrite fold_left_app. reflexivity. Qed.

Lemma from_to_bytes_be (k : nat) (n : Z) :
  from_bytes_be (to_bytes_be k n) = (n mod 256 ^ Z.of_nat k)%Z.
Proof.
  revert n. induction k as [|k IH]; intros n.
  - simpl. rewrite Z.mod_1_r. reflexivity.
  - simpl to_bytes_be. rewrite from_bytes_be_snoc, IH, byte_of_mod_to_N.
    pose proof (Z.mod_pos_bound n 256 ltac:(lia)) as Hb.
    rewrite Z2N.id by lia.
    rewrite Nat2Z.inj_succ, Z.pow_succ_r by lia.
    assert (Hp : (0 < 256 ^ Z.of_nat k)%Z) by (apply Z.pow_pos_nonneg; lia).
    set (m := (256 ^ Z.of_nat k)%Z) in *.
    apply (Z.mod_unique n (256 * m) (n / 256 / m)).
    + left. pose proof (Z.mod_pos_bound (n / 256) m Hp). nia.
    + pose proof (Z.div_mod n 256 ltac:(lia)) as H1.
      pose proof (Z.div_mod (n / 256) m ltac:(lia)) as H2.
      nia.
Qed.

Lemma from_to_bytes8 (n : Z) :
  (0 <= n < 2 ^ 64)%Z -> from_bytes_be (to_bytes_be 8 n) = n.
Proof.
  intros H. rewrite from_to_bytes_be. apply Z.mod_small.
  change (256 ^ Z.of_nat 8)%Z with (2 ^ 64)%Z. exact H.
Qed.

Lemma slice_token_parts (ub t sg : bytes) :
  length ub = 8 -> length sg = 64 ->
  py_slice (ub ++ t ++ sg)%list None (Some 8%Z) = ub /\
  py_slice (ub ++ t ++ sg)%list (Some 8%Z) (Some (-64)%Z) = t /\
  py_slice (ub ++ t ++ sg)%list (Some (-64)%Z) None = sg.
Proof.
  intros Hu Hs. unfold py_slice, norm_index.
  rewrite !length_app, Hu, Hs.
  set (lt := length t).
  replace (Z.of_nat (8 + (lt + 64))) with (72 + Z.of_nat lt)%Z by lia.
  assert (E1 : (8 <? 0)%Z = false) by reflexivity.
  assert (E2 : (-64 <? 0)%Z = true) by reflexivity.
  rewrite E1, E2.
  replace (Z.min 8 (72 + Z.of_nat lt)) with 8%Z by lia.
  replace (Z.max 0 (72 + Z.of_nat lt + -64)) with (8 + Z.of_nat lt)%Z by lia.
  split; [|split].
  - change (Z.to_nat (8 - 0)) with 8%nat. simpl skipn.
    rewrite firstn_app, Hu, Nat.sub_diag, (firstn_all2 ub) by lia. simpl. apply app_nil_r.
  - replace (Z.to_nat (8 + Z.of_nat lt - 8)) with lt by lia.
    change (Z.to_nat 8) with 8%nat.
    rewrite skipn_app, Hu, Nat.sub_diag, (skipn_all2 ub) by lia. simpl.
    rewrite firstn_app. fold lt. rewrite Nat.sub_diag, (firstn_all2 t) by lia. simpl. apply app_nil_r.
  - replace (Z.to_nat (72 + Z.of_nat lt - (8 + Z.of_nat lt))) with 64%nat by lia.
    replace (Z.to_nat (8 + Z.of_nat lt)) with (length (ub ++ t)%list) by (rewrite length_app; lia).
    rewrite app_assoc, skipn_app, Nat.sub_diag, (skipn_all2 (ub ++ t)) by lia.
    cbn [app]. change (skipn 0 sg) with sg.
    apply firstn_all2. lia.
Qed.


Section RoundTrip.

Variable encode : string -> bytes.
Variable decode : bytes -> option string.
Variable hmac_sha256_hex : bytes -> bytes -> string.
Variable b64encode : bytes -> string.
Variable b64decode : string -> option bytes.

(** UTF-8 decoding inverts encoding; a SHA-256 hex digest is 64 ASCII
    characters; urlsafe base64 decoding inverts encoding. *)
Hypothesis decode_encode : forall s, decode (encode s) = Some s.
Hypothesis hexdigest_length : forall k m, length (encode (hmac_sha256_hex k m)) = 64.
Hypothesis b64decode_b64encode : forall b, b64decode (b64encode b) = Some b.

(** C10: for [0 <= user_id < 2^64], any secret key and any timestamp the
    token is generated at, [verify_access_token] returns [user_id] on the
    token [generate_access_token] returns; likewise for the [do] module
    with its fixed key. *)
Theorem access_token_roundtrip (user_id : Z) (secret_key timestamp : string) (key : bytes) :
  (0 <= user_id < 2 ^ 64)%Z ->
  match generate_access_token encode hmac_sha256_hex b64encode user_id secret_key timestamp with
  | Some token =>
      verify_access_token encode decode hmac_sha256_hex b64decode token secret_key = Some user_id
  | None => False
  end /\
  match do_generate_access_token encode hmac_sha256_hex b64encode key user_id timestamp with
  | Some token =>
      do_verify_access_token encode decode hmac_sha256_hex b64decode key token = Some user_id
  | None => False
  end.
Proof.
  intros Hr.
  assert (H8 : to_bytes8 user_id = Some (to_bytes_be 8 user_id)).
  { unfold to_bytes8. destruct Hr as [H0 H1].
    apply Z.leb_le in H0. apply Z.ltb_lt in H1. rewrite H0, H1. reflexivity. }
  pose proof (length_to_bytes_be 8 user_id) as Hl8.
  pose proof (from_to_bytes8 user_id Hr) as Hft.
  split.
  - unfold generate_access_token, verify_access_token.
    unfold generate_access_token_signature at 1. rewrite H8.
    set (sg := hmac_sha256_hex (encode secret_key) (to_bytes_be 8 user_id ++ encode timestamp)%list).
    rewrite b64decode_b64encode.
    destruct (slice_token_parts (to_bytes_be 8 user_id) (encode timestamp) (encode sg) Hl8
                (hexdigest_length _ _)) as [E1 [E2 E3]].
    rewrite E1, E2, E3, Hft, !decode_encode.
    unfold generate_access_token_signature. rewrite H8. fold sg.
    rewrite String.eqb_refl. reflexivity.
  - unfold do_generate_access_token, do_verify_access_token.
    unfold do_generate_access_token_signature at 1. rewrite H8.
    set (sg := hmac_sha256_hex key (to_bytes_be 8 user_id ++ encode timestamp)%list).
    rewrite b64decode_b64encode.
    destruct (slice_token_parts (to_bytes_be 8 user_id) (encode timestamp) (encode sg) Hl8
                (hexdigest_length _ _)) as [E1 [E2 E3]].
    rewrite E1, E2, E3, Hft, !decode_encode.
    unfold do_generate_access_token_signature. rewrite H8. fold sg.
    rewrite String.eqb_refl. reflexivity.
Qed.

End RoundTrip.

Lemma access_token_roundtrip_witness :
  ((forall s, id_decode (list_byte_of_string s) = Some s) /\
   (forall k m, length (list_byte_of_string (const_hmac k m)) = 64) /\
   (forall b, id_b64decode (string_of_list_byte b) = Some b) /\
   (0 <= 42 < 2 ^ 64)%Z) /\
  (match generate_access_token list_byte_of_string const_hmac string_of_list_byte 42
           "secret" "2026-10-14T00:00:00+00:00" with
   | Some token =>
       verify_access_token list_byte_of_string id_decode const_hmac id_b64decode token "secret"
       = Some 42%Z
   | None => False
   end /\
   match do_generate_access_token list_byte_of_string const_hmac string_of_list_byte
           (list_byte_of_string "key") 42 "2026-10-14T00:00:00+00:00" with
   | Some token =>
       do_verify_access_token list_byte_of_string id_decode const_hmac id_b64decode
         (list_byte_of_string "key") token = Some 42%Z
   | None => False
   end).
Proof.
  assert (Hd : forall s, id_decode (list_byte_of_string s) = Some s).
  { intros s. unfold id_decode. rewrite string_of_list_byte_of_string. reflexivity. }
  assert (Hh : forall k m, length (list_byte_of_string (const_hmac k m)) = 64) by reflexivity.
  assert (Hb : forall b, id_b64decode (string_of_list_byte b) = Some b).
  { intros b. unfold id_b64decode. rewrite list_byte_of_string_of_list_byte. reflexivity. }
  split; [split; [exact Hd|split; [exact Hh|split; [exact Hb|lia]]]|].
  apply (access_token_roundtrip list_byte_of_string id_decode const_hmac string_of_list_byte
           id_b64decode Hd Hh Hb 42 "secret" "2026-10-14T00:00:00+00:00"
           (list_byte_of_string "key")).
  lia.
Defined.

End TokenFacts.
